(** * DonateContract: an encrypted charity campaign

    Shallow embedding of [contracts/DonateContract.sol] and of the part of
    the FHEVM Solidity library ([FHE], imported at the top of the contract)
    that the contract calls, followed by the properties of the campaign
    ledger, of the decryption callbacks and of the lifecycle flag. *)

From Stdlib Require Import ZArith List Bool Lia String.
From stdpp Require Import base gmap sets list.

Local Open Scope Z_scope.

(** ** Machine integers and addresses *)

Abbreviation address := Z (only parsing).

Definition uint128_max : Z := 2 ^ 128 - 1.

(** ** Encrypted handles

    An [euint128] or [eaddress] is an opaque handle.  A handle denotes one
    immutable ciphertext, so the model carries the plaintext it encrypts
    along with the handle's identity; the contract never reads [plain], only
    the library's homomorphic operations and the decryption oracle do.  The
    identity [0] is the uninitialised handle (the default value of a storage
    slot of handle type). *)

Record ehandle : Type := { hid : Z; plain : Z }.

Abbreviation euint128 := ehandle (only parsing).
Abbreviation eaddress := ehandle (only parsing).

Definition uninitialized : ehandle := {| hid := 0; plain := 0 |}.

Definition isInitialized (h : ehandle) : bool := negb (hid h =? 0).

(** An encrypted input as submitted by a caller: the pair
    [(externalEuint128 encryptedX, bytes xProof)] of the Solidity signature.
    [ext_plain] is the value the caller encrypted, [ext_proof_ok] tells
    whether the accompanying input proof verifies. *)

Record externalEuint128 : Type := { ext_plain : Z; ext_proof_ok : bool }.

(** ** Events of the contract *)

Inductive Event : Type :=
| CampaignStarted (owner : address) (target : euint128)
| CampaignEnded (owner : address) (finalAmount : Z)
| Donation (donor : address) (amount : euint128)
| WithdrawalRequested (owner : address) (amount : euint128)
| Withdrawn (owner : address) (amount : Z)
| TargetUpdated (newTarget : euint128)
| CampaignProgress (total target percentage : Z).

(** ** Reasons for which a call reverts *)

Inductive Failure : Type :=
| Error (msg : string)          (* require(cond, msg) in the contract *)
| Panic (code : Z)              (* compiler-inserted check; 0x11 = overflow *)
| InputProofRejected            (* FHE.fromExternal: the input proof fails *)
| NoHandleFoundForRequestID     (* FHE.checkSignatures: unknown request id *)
| InvalidKMSSignatures          (* FHE.checkSignatures: bad decryption proof *)
| DecodeFailed                  (* abi.decode on malformed cleartexts *)
| TransferFailed.               (* the recipient of .transfer rejects it *)

(** ** State *)

(** Storage variables of the contract, in declaration order. *)
Record Storage : Type := {
  campaignActive : bool;
  charityOwner : address;
  _totalDonations : euint128;
  _targetAmount : euint128;
  _donorBalances : gmap address euint128;
  _encryptedDonorAddresses : gmap address eaddress;
  _pendingWithdrawals : gmap Z address;
}.

(** State kept by the FHE library on behalf of the contract: the source of
    fresh handle identities, the persistent access grants [(handle, account)]
    and the decryption requests (counter and handles saved per request). *)
Record FheState : Type := {
  nextHandle : Z;
  acl : gset (Z * address);
  counterRequest : Z;
  requestedHandles : gmap Z (list ehandle);
}.

(** The contract account: its address, storage, library state, native
    balance, the events it emitted (those the contract declares; the events
    of the library are not recorded) and the native transfers it made,
    oldest first.  [nonpayable] is the set of accounts that reject a plain
    [.transfer] (contracts without a payable receive function). *)
Record State : Type := {
  this : address;
  storage : Storage;
  fhe : FheState;
  balance : Z;
  events : list Event;
  transfers : list (address * Z);
  nonpayable : gset address;
}.

(** Field updates. *)

Definition with_campaignActive (b : bool) (st : Storage) : Storage :=
  {| campaignActive := b;
     charityOwner := charityOwner st;
     _totalDonations := _totalDonations st;
     _targetAmount := _targetAmount st;
     _donorBalances := _donorBalances st;
     _encryptedDonorAddresses := _encryptedDonorAddresses st;
     _pendingWithdrawals := _pendingWithdrawals st |}.

Definition with_charityOwner (a : address) (st : Storage) : Storage :=
  {| campaignActive := campaignActive st;
     charityOwner := a;
     _totalDonations := _totalDonations st;
     _targetAmount := _targetAmount st;
     _donorBalances := _donorBalances st;
     _encryptedDonorAddresses := _encryptedDonorAddresses st;
     _pendingWithdrawals := _pendingWithdrawals st |}.

Definition with_totalDonations (h : euint128) (st : Storage) : Storage :=
  {| campaignActive := campaignActive st;
     charityOwner := charityOwner st;
     _totalDonations := h;
     _targetAmount := _targetAmount st;
     _donorBalances := _donorBalances st;
     _encryptedDonorAddresses := _encryptedDonorAddresses st;
     _pendingWithdrawals := _pendingWithdrawals st |}.

Definition with_targetAmount (h : euint128) (st : Storage) : Storage :=
  {| campaignActive := campaignActive st;
     charityOwner := charityOwner st;
     _totalDonations := _totalDonations st;
     _targetAmount := h;
     _donorBalances := _donorBalances st;
     _encryptedDonorAddresses := _encryptedDonorAddresses st;
     _pendingWithdrawals := _pendingWithdrawals st |}.

Definition with_donorBalances (m : gmap address euint128) (st : Storage) : Storage :=
  {| campaignActive := campaignActive st;
     charityOwner := charityOwner st;
     _totalDonations := _totalDonations st;
     _targetAmount := _targetAmount st;
     _donorBalances := m;
     _encryptedDonorAddresses := _encryptedDonorAddresses st;
     _pendingWithdrawals := _pendingWithdrawals st |}.

Definition with_encryptedDonorAddresses (m : gmap address eaddress) (st : Storage) : Storage :=
  {| campaignActive := campaignActive st;
     charityOwner := charityOwner st;
     _totalDonations := _totalDonations st;
     _targetAmount := _targetAmount st;
     _donorBalances := _donorBalances st;
     _encryptedDonorAddresses := m;
     _pendingWithdrawals := _pendingWithdrawals st |}.

Definition with_pendingWithdrawals (m : gmap Z address) (st : Storage) : Storage :=
  {| campaignActive := campaignActive st;
     charityOwner := charityOwner st;
     _totalDonations := _totalDonations st;
     _targetAmount := _targetAmount st;
     _donorBalances := _donorBalances st;
     _encryptedDonorAddresses := _encryptedDonorAddresses st;
     _pendingWithdrawals := m |}.

Definition with_storage (st : Storage) (s : State) : State :=
  {| this := this s; storage := st; fhe := fhe s; balance := balance s;
     events := events s; transfers := transfers s; nonpayable := nonpayable s |}.

Definition with_fhe (f : FheState) (s : State) : State :=
  {| this := this s; storage := storage s; fhe := f; balance := balance s;
     events := events s; transfers := transfers s; nonpayable := nonpayable s |}.

Definition with_balance (b : Z) (s : State) : State :=
  {| this := this s; storage := storage s; fhe := fhe s; balance := b;
     events := events s; transfers := transfers s; nonpayable := nonpayable s |}.

Definition with_events (l : list Event) (s : State) : State :=
  {| this := this s; storage := storage s; fhe := fhe s; balance := balance s;
     events := l; transfers := transfers s; nonpayable := nonpayable s |}.

Definition with_transfers (l : list (address * Z)) (s : State) : State :=
  {| this := this s; storage := storage s; fhe := fhe s; balance := balance s;
     events := events s; transfers := l; nonpayable := nonpayable s |}.

(** ** The call monad: state passing with revert *)

Inductive Result (A : Type) : Type :=
| Ok (a : A) (s : State)
| Revert (f : Failure).

Arguments Ok {A} a s.
Arguments Revert {A} f.

Definition M (A : Type) : Type := State -> Result A.

Definition ret {A} (a : A) : M A := fun s => Ok a s.

Definition bind {A B} (m : M A) (k : A -> M B) : M B :=
  fun s => match m s with
           | Ok a s' => k a s'
           | Revert f => Revert f
           end.

Definition revert {A} (f : Failure) : M A := fun _ => Revert f.

Definition gets {A} (f : State -> A) : M A := fun s => Ok (f s) s.

Definition modify (f : State -> State) : M unit := fun s => Ok tt (f s).

#[global] Instance M_ret : MRet M := @ret.
#[global] Instance M_bind : MBind M := fun A B k m => bind m k.

Definition require (cond : bool) (msg : string) : M unit :=
  if cond then ret tt else revert (Error msg).

Definition sload {A} (f : Storage -> A) : M A := gets (fun s => f (storage s)).

Definition sstore (f : Storage -> Storage) : M unit :=
  modify (fun s => with_storage (f (storage s)) s).

Definition emit (e : Event) : M unit :=
  modify (fun s => with_events (events s ++ [e]) s).

(** ** The FHE library

    [FHE] is the Solidity library of the FHEVM, imported by the contract
    from [@fhevm/solidity]; it is a dependency, not code of this repository.
    The model keeps what the contract relies on.  A handle denotes an
    immutable ciphertext; [fromExternal] checks an input proof; [add] is
    addition modulo 2^128; [allow] and [allowThis] record persistent access
    grants; [requestDecryption] numbers the requests of the contract from a
    counter and saves the handles of each; [checkSignatures] accepts a
    completion when its cleartexts are the signed decryptions of the handles
    saved for the request.

    Left out: the permission checks of the coprocessor on the operands of an
    operation (every handle the contract operates on was produced in the same
    call or granted to the contract when it was stored), the marking of
    requested handles as publicly decryptable, and the events of the library
    itself ([DecryptionFulfilled], logged by [checkSignatures] when it
    accepts a completion).

    Handle identities are abstract: the model gives the result of every
    operation a new identity, whereas the library derives the handle from
    the operation and its operands, so that there equal operations on equal
    operands return one handle and every [asEuint128(0)] is the same handle.
    Plaintexts are not affected; a statement that two handles differ, or
    that a handle is held in one role only, is a statement about the model. *)

Module FHE.

(** A new ciphertext of plaintext [v] under a fresh handle identity. *)
Definition fresh (v : Z) : M ehandle :=
  fun s =>
    let f := fhe s in
    Ok {| hid := nextHandle f; plain := v |}
       (with_fhe {| nextHandle := nextHandle f + 1;
                    acl := acl f;
                    counterRequest := counterRequest f;
                    requestedHandles := requestedHandles f |} s).

(** [FHE.asEuint128(v)] and [FHE.asEaddress(a)]: trivial encryptions. *)
Definition asEuint128 (v : Z) : M euint128 := fresh v.
Definition asEaddress (a : address) : M eaddress := fresh a.

(** [FHE.fromExternal(input, proof)]: verifies the input proof and returns
    the handle of the submitted ciphertext. *)
Definition fromExternal (x : externalEuint128) : M euint128 :=
  if ext_proof_ok x then fresh (ext_plain x) else revert InputProofRejected.

(** [FHE.add] on [euint128]: an uninitialised operand is replaced by a
    trivial encryption of zero; the sum wraps around at 128 bits. *)
Definition add (a b : euint128) : M euint128 :=
  a' ← (if isInitialized a then ret a else asEuint128 0);
  b' ← (if isInitialized b then ret b else asEuint128 0);
  fresh ((plain a' + plain b') mod 2 ^ 128).

(** [FHE.allow(h, account)] and [FHE.allowThis(h)]. *)
Definition allow (h : ehandle) (account : address) : M unit :=
  modify (fun s =>
    let f := fhe s in
    with_fhe {| nextHandle := nextHandle f;
                acl := {[ (hid h, account) ]} ∪ acl f;
                counterRequest := counterRequest f;
                requestedHandles := requestedHandles f |} s).

Definition allowThis (h : ehandle) : M unit :=
  me ← gets this; allow h me.

(** [FHE.requestDecryption(cts, selector)]: the request id is the current
    value of the request counter; the handles are saved under it and the
    counter is incremented. *)
Definition requestDecryption (cts : list ehandle) : M Z :=
  fun s =>
    let f := fhe s in
    let requestID := counterRequest f in
    Ok requestID
       (with_fhe {| nextHandle := nextHandle f;
                    acl := acl f;
                    counterRequest := requestID + 1;
                    requestedHandles := <[ requestID := cts ]> (requestedHandles f) |} s).

(** Verification of a decryption proof: the oracle's signatures cover the
    handles of the request together with their cleartexts, so a proof
    verifies exactly when it is a genuine one ([proof = true]) and the
    cleartext words are the plaintexts of the saved handles, in order. *)
Definition verifySignatures (handlesList : list ehandle) (cleartexts : list Z)
    (proof : bool) : bool :=
  proof && bool_decide (cleartexts = map plain handlesList).

(** [FHE.checkSignatures(requestId, cleartexts, proof)]: loads the handles
    saved for the request (reverting when there are none) and verifies the
    proof against them.  The saved handles are left in place. *)
Definition checkSignatures (requestID : Z) (cleartexts : list Z) (proof : bool)
    : M unit :=
  saved ← gets (fun s => requestedHandles (fhe s) !! requestID);
  match saved with
  | None | Some [] => revert NoHandleFoundForRequestID
  | Some handlesList =>
      if verifySignatures handlesList cleartexts proof then ret tt
      else revert InvalidKMSSignatures
  end.

End FHE.

(** ** EVM primitives used by the contract *)

(** Reading a Solidity mapping: an absent key reads as the zero value. *)
Definition handle_at (m : gmap address ehandle) (k : address) : ehandle :=
  default uninitialized (m !! k).

Definition address_at (m : gmap Z address) (k : Z) : address :=
  default 0 (m !! k).

Definition is_uint128 (w : Z) : bool := (0 <=? w) && (w <=? uint128_max).

(** [abi.decode(cleartexts, (uint128))]: the first 32-byte word, which must
    fit 128 bits; trailing data is ignored. *)
Definition abi_decode_uint128 (cleartexts : list Z) : M Z :=
  match cleartexts with
  | w :: _ => if is_uint128 w then ret w else revert DecodeFailed
  | [] => revert DecodeFailed
  end.

(** [abi.decode(cleartexts, (uint128, uint128))]. *)
Definition abi_decode_uint128_uint128 (cleartexts : list Z) : M (Z * Z) :=
  match cleartexts with
  | w1 :: w2 :: _ =>
      if is_uint128 w1 && is_uint128 w2 then ret (w1, w2) else revert DecodeFailed
  | _ => revert DecodeFailed
  end.

(** Checked multiplication at type [uint128]: Solidity 0.8 reverts with
    [Panic(0x11)] when the product does not fit. *)
Definition checked_mul_uint128 (a b : Z) : M Z :=
  if a * b <=? uint128_max then ret (a * b) else revert (Panic 17).

(** [payable(to).transfer(amount)]. *)
Definition transfer (to : address) (amount : Z) : M unit :=
  fun s =>
    if (balance s <? amount) || bool_decide (to ∈ nonpayable s)
    then Revert TransferFailed
    else Ok tt (with_transfers (transfers s ++ [(to, amount)])
                 (with_balance (balance s - amount) s)).

(** The native value attached to a call of a payable function is credited
    on entry. *)
Definition receive_value (value : Z) : M unit :=
  modify (fun s => with_balance (balance s + value) s).

(** ** The contract *)

Module DonateContract.

Definition constructor : M unit :=
  sstore (with_campaignActive false);;
  zero ← FHE.asEuint128 0;
  sstore (with_totalDonations zero);;
  zero' ← FHE.asEuint128 0;
  sstore (with_targetAmount zero').

Definition onlyOwner (sender : address) : M unit :=
  owner ← sload charityOwner;
  require (sender =? owner) "Not owner".

Definition whenActive : M unit :=
  active ← sload campaignActive;
  require active "Campaign not active".

Definition whenNotActive : M unit :=
  active ← sload campaignActive;
  require (negb active) "Campaign active".

Definition startCampaign (sender : address) (encryptedTarget : externalEuint128)
    : M unit :=
  whenNotActive;;
  target ← FHE.fromExternal encryptedTarget;
  sstore (with_charityOwner sender);;
  sstore (with_campaignActive true);;
  sstore (with_targetAmount target);;
  zero ← FHE.asEuint128 0;
  sstore (with_totalDonations zero);;
  tgt ← sload _targetAmount;
  owner ← sload charityOwner;
  tot ← sload _totalDonations;
  FHE.allowThis tgt;;
  FHE.allow tgt owner;;
  FHE.allowThis tot;;
  FHE.allow tot owner;;
  emit (CampaignStarted owner target).

Definition endCampaign (sender : address) : M unit :=
  onlyOwner sender;;
  whenActive;;
  sstore (with_campaignActive false);;
  tot ← sload _totalDonations;
  requestId ← FHE.requestDecryption [tot];
  sstore (fun st =>
    with_pendingWithdrawals (<[ requestId := sender ]> (_pendingWithdrawals st)) st);;
  emit (WithdrawalRequested sender tot).

Definition updateTarget (sender : address) (encryptedTarget : externalEuint128)
    : M unit :=
  onlyOwner sender;;
  whenActive;;
  target ← FHE.fromExternal encryptedTarget;
  sstore (with_targetAmount target);;
  owner ← sload charityOwner;
  FHE.allowThis target;;
  FHE.allow target owner;;
  emit (TargetUpdated target).

Definition donate (sender : address) (value : Z) (encryptedAmount : externalEuint128)
    : M unit :=
  receive_value value;;
  whenActive;;
  require (0 <? value) "Donation > 0";;
  require (value <=? uint128_max) "Amount too large";;
  amount ← FHE.fromExternal encryptedAmount;
  encryptedDonor ← FHE.asEaddress sender;
  tot ← sload _totalDonations;
  tot' ← FHE.add tot amount;
  sstore (with_totalDonations tot');;
  bal ← sload (fun st => handle_at (_donorBalances st) sender);
  bal' ← FHE.add bal amount;
  sstore (fun st => with_donorBalances (<[ sender := bal' ]> (_donorBalances st)) st);;
  sstore (fun st =>
    with_encryptedDonorAddresses
      (<[ sender := encryptedDonor ]> (_encryptedDonorAddresses st)) st);;
  owner ← sload charityOwner;
  FHE.allowThis tot';;
  FHE.allow tot' owner;;
  FHE.allowThis bal';;
  FHE.allow bal' sender;;
  emit (Donation sender amount).

Definition requestProgress : M Z :=
  whenActive;;
  tot ← sload _totalDonations;
  tgt ← sload _targetAmount;
  FHE.requestDecryption [tot; tgt].

Definition callbackEndCampaign (requestId : Z) (cleartexts : list Z) (proof : bool)
    : M unit :=
  FHE.checkSignatures requestId cleartexts proof;;
  decryptedAmount ← abi_decode_uint128 cleartexts;
  withdrawer ← sload (fun st => address_at (_pendingWithdrawals st) requestId);
  sstore (fun st =>
    with_pendingWithdrawals (delete requestId (_pendingWithdrawals st)) st);;
  owner ← sload charityOwner;
  require (withdrawer =? owner) "Not owner";;
  held ← gets balance;
  require (decryptedAmount <=? held) "Insufficient balance";;
  transfer withdrawer decryptedAmount;;
  emit (Withdrawn withdrawer decryptedAmount);;
  emit (CampaignEnded withdrawer decryptedAmount).

Definition callbackProgress (requestId : Z) (cleartexts : list Z) (proof : bool)
    : M unit :=
  FHE.checkSignatures requestId cleartexts proof;;
  '(total, target) ← abi_decode_uint128_uint128 cleartexts;
  percentage ← (if 0 <? target
                then product ← checked_mul_uint128 total 100;
                     mret (product / target)
                else mret 0);
  emit (CampaignProgress total target percentage).

Definition totalDonations (s : State) : euint128 := _totalDonations (storage s).
Definition targetAmount (s : State) : euint128 := _targetAmount (storage s).
Definition balanceOf (s : State) (donor : address) : euint128 :=
  handle_at (_donorBalances (storage s)) donor.

End DonateContract.

(** ** Transactions *)

(** The state of the contract account before the constructor runs. *)
Definition blank (self : address) (rejecting : gset address) : State :=
  {| this := self;
     storage := {| campaignActive := false; charityOwner := 0;
                   _totalDonations := uninitialized;
                   _targetAmount := uninitialized;
                   _donorBalances := ∅;
                   _encryptedDonorAddresses := ∅;
                   _pendingWithdrawals := ∅ |};
     fhe := {| nextHandle := 1; acl := ∅; counterRequest := 0;
               requestedHandles := ∅ |};
     balance := 0; events := []; transfers := []; nonpayable := rejecting |}.

(** A top-level call commits its effects when it returns and leaves the
    state as it was when it reverts. *)
Definition commit {A} (m : M A) (s : State) : State :=
  match m s with
  | Ok _ s' => s'
  | Revert _ => s
  end.

Definition deployed (self : address) (rejecting : gset address) : State :=
  commit DonateContract.constructor (blank self rejecting).

Inductive Tx : Type :=
| StartCampaign (sender : address) (encryptedTarget : externalEuint128)
| EndCampaign (sender : address)
| UpdateTarget (sender : address) (encryptedTarget : externalEuint128)
| Donate (sender : address) (value : Z) (encryptedAmount : externalEuint128)
| RequestProgress
| CallbackEndCampaign (requestId : Z) (cleartexts : list Z) (proof : bool)
| CallbackProgress (requestId : Z) (cleartexts : list Z) (proof : bool).

Definition call (tx : Tx) : M unit :=
  match tx with
  | StartCampaign sender x => DonateContract.startCampaign sender x
  | EndCampaign sender => DonateContract.endCampaign sender
  | UpdateTarget sender x => DonateContract.updateTarget sender x
  | Donate sender value x => DonateContract.donate sender value x
  | RequestProgress => DonateContract.requestProgress;; mret tt
  | CallbackEndCampaign rid cts proof => DonateContract.callbackEndCampaign rid cts proof
  | CallbackProgress rid cts proof => DonateContract.callbackProgress rid cts proof
  end.

Definition step (s : State) (tx : Tx) : State := commit (call tx) s.

Definition run (s : State) (txs : list Tx) : State := fold_left step txs s.

(** ** Traces

    Vocabulary for the statements about histories of calls. *)

(** An encrypted input whose proof verifies. *)
Definition enc (v : Z) : externalEuint128 :=
  {| ext_plain := v; ext_proof_ok := true |}.

(** The states the deployed contract can be in. *)
Definition reachable (s : State) : Prop :=
  exists self rejecting txs, s = run (deployed self rejecting) txs.

(** Handle identities are allocated from a positive counter, and every
    handle kept in the ledger is an initialised one. *)
Definition wf (s : State) : Prop :=
  0 < nextHandle (fhe s)
  /\ hid (_totalDonations (storage s)) <> 0
  /\ hid (_targetAmount (storage s)) <> 0
  /\ forall d h, _donorBalances (storage s) !! d = Some h -> hid h <> 0.

Definition is_start (tx : Tx) : bool :=
  match tx with StartCampaign _ _ => true | _ => false end.

Definition is_lifecycle (tx : Tx) : bool :=
  match tx with StartCampaign _ _ | EndCampaign _ => true | _ => false end.

(** The plaintext amounts of the [donate] calls of a trace that succeed,
    in order. *)
Fixpoint successful_donations (s : State) (txs : list Tx) : list Z :=
  match txs with
  | [] => []
  | tx :: rest =>
      match tx, call tx s with
      | Donate _ _ x, Ok _ _ => ext_plain x :: successful_donations (step s tx) rest
      | _, _ => successful_donations (step s tx) rest
      end
  end.

Definition add_wrapped (t a : Z) : Z := (t + a) mod 2 ^ 128.

Definition sum (l : list Z) : Z := fold_right Z.add 0 l.

(** The plaintext amounts of the successful [donate] calls of one donor in a
    trace, in order. *)
Fixpoint donations_by (donor : address) (s : State) (txs : list Tx) : list Z :=
  match txs with
  | [] => []
  | tx :: rest =>
      match tx, call tx s with
      | Donate d _ x, Ok _ _ =>
          if d =? donor then ext_plain x :: donations_by donor (step s tx) rest
          else donations_by donor (step s tx) rest
      | _, _ => donations_by donor (step s tx) rest
      end
  end.

(** The value of the lifecycle flag after a trace, told from the calls
    alone: the last successful [startCampaign] or [endCampaign] decides. *)
Fixpoint flag_after (active : bool) (s : State) (txs : list Tx) : bool :=
  match txs with
  | [] => active
  | tx :: rest =>
      flag_after
        match tx, call tx s with
        | StartCampaign _ _, Ok _ _ => true
        | EndCampaign _, Ok _ _ => false
        | _, _ => active
        end
        (step s tx) rest
  end.

(** A call made from a real account: the sender of a transaction is never
    the zero address. *)
Definition from_account (tx : Tx) : Prop :=
  match tx with
  | StartCampaign sender _ | EndCampaign sender | UpdateTarget sender _
  | Donate sender _ _ => sender <> 0
  | _ => True
  end.

(** Bookkeeping of the decryption requests: ids at or above the counter are
    unused, and a pending withdrawal belongs to a request over one handle. *)
Definition requests_wf (s : State) : Prop :=
  (forall rid, counterRequest (fhe s) <= rid ->
               requestedHandles (fhe s) !! rid = None)
  /\ (forall rid a, _pendingWithdrawals (storage s) !! rid = Some a ->
                    exists h, requestedHandles (fhe s) !! rid = Some [h]).

(** A request id that can no longer lead to a withdrawal. *)
Definition spent (rid : Z) (s : State) : Prop :=
  rid < counterRequest (fhe s)
  /\ _pendingWithdrawals (storage s) !! rid = None
  /\ charityOwner (storage s) <> 0.

(** Native funds: what the contract has sent out, and what the successful
    donations of a trace paid in. *)
Definition sent (s : State) : Z := sum (map snd (transfers s)).

Fixpoint paid_in (s : State) (txs : list Tx) : Z :=
  match txs with
  | [] => 0
  | tx :: rest =>
      match tx, call tx s with
      | Donate _ value _, Ok _ _ => value + paid_in (step s tx) rest
      | _, _ => paid_in (step s tx) rest
      end
  end.

(** [a] is the sender of [tx], a campaign start or a donation. *)
Definition acted (a : address) (tx : Tx) : Prop :=
  match tx with
  | StartCampaign sender _ | Donate sender _ _ => sender = a
  | _ => False
  end.

(** [a] took part in the trace [txs] run from [s0]: one of its campaign
    starts or donations was executed and did not revert. *)
Definition took_part (s0 : State) (a : address) (txs : list Tx) : Prop :=
  exists pre tx post,
    txs = pre ++ tx :: post /\ acted a tx
    /\ exists s', call tx (run s0 pre) = Ok tt s'.

(** A donation that pays what it encrypts, as the client of the contract
    sends it ([hooks/useDonateContract.tsx], [donate]: the same [clearAmount]
    is encrypted and attached as value). *)
Definition honest (tx : Tx) : Prop :=
  match tx with
  | Donate _ value x => ext_plain x = value
  | _ => True
  end.

(** What the contract owes: for each pending withdrawal the plaintext of
    the handle saved with its request, summed over the request ids issued so
    far (they are the integers from 0 up to the counter). *)
Definition debt (pending : gmap Z Z) (saved : gmap Z (list ehandle)) (rid : Z) : Z :=
  match pending !! rid, saved !! rid with
  | Some _, Some (h :: _) => plain h
  | _, _ => 0
  end.

Fixpoint debts_below (pending : gmap Z Z) (saved : gmap Z (list ehandle)) (n : nat) : Z :=
  match n with
  | O => 0
  | S k => debt pending saved (Z.of_nat k) + debts_below pending saved k
  end.

Definition owed (s : State) : Z :=
  debts_below (_pendingWithdrawals (storage s)) (requestedHandles (fhe s))
    (Z.to_nat (counterRequest (fhe s))).

Definition campaign_total (s : State) : Z :=
  if campaignActive (storage s) then plain (_totalDonations (storage s)) else 0.

Definition solvent (s : State) : Prop :=
  0 <= counterRequest (fhe s)
  /\ (forall rid a, _pendingWithdrawals (storage s) !! rid = Some a ->
                    0 <= rid < counterRequest (fhe s))
  /\ 0 <= plain (_totalDonations (storage s))
  /\ (forall rid, 0 <= debt (_pendingWithdrawals (storage s))
                          (requestedHandles (fhe s)) rid)
  /\ campaign_total s + owed s <= balance s
  /\ (charityOwner (storage s) <> 0
      \/ (campaignActive (storage s) = false
          /\ forall rid, requestedHandles (fhe s) !! rid = None)).

(** How a call ends, leaving the state aside: [None] for a return, the
    reason for a revert. *)
Definition outcome {A} (r : Result A) : option Failure :=
  match r with
  | Ok _ _ => None
  | Revert f => Some f
  end.

(** A pending withdrawal whose recorded account is not the owner. *)
Definition blocked (rid w : Z) (s : State) : Prop :=
  _pendingWithdrawals (storage s) !! rid = Some w
  /\ charityOwner (storage s) <> w
  /\ rid < counterRequest (fhe s).

Definition starts_as (w : Z) (tx : Tx) : Prop :=
  match tx with
  | StartCampaign sender _ => sender = w
  | _ => False
  end.

(** The events of the contract that a successful call appends to the log.
    The [Donation] event carries the handle that [FHE.fromExternal] returned
    for the submitted amount. *)
Definition emitted (tx : Tx) (s s' : State) : list Event :=
  match tx with
  | StartCampaign sender _ => [CampaignStarted sender (_targetAmount (storage s'))]
  | EndCampaign sender => [WithdrawalRequested sender (_totalDonations (storage s))]
  | UpdateTarget _ _ => [TargetUpdated (_targetAmount (storage s'))]
  | Donate sender _ x =>
      match FHE.fromExternal x s with
      | Ok amount _ => [Donation sender amount]
      | Revert _ => []
      end
  | RequestProgress => []
  | CallbackEndCampaign _ cleartexts _ =>
      [Withdrawn (charityOwner (storage s)) (hd 0 cleartexts);
       CampaignEnded (charityOwner (storage s)) (hd 0 cleartexts)]
  | CallbackProgress _ cleartexts _ =>
      let total := nth 0 cleartexts 0 in
      let target := nth 1 cleartexts 0 in
      [CampaignProgress total target
         (if 0 <? target then total * 100 / target else 0)]
  end.

(** * Properties *)

(** ** Symbolic execution of calls *)

Ltac reduce_call :=
  cbv beta iota zeta delta
    [step run commit call
     DonateContract.startCampaign DonateContract.endCampaign
     DonateContract.updateTarget DonateContract.donate
     DonateContract.requestProgress DonateContract.callbackEndCampaign
     DonateContract.callbackProgress DonateContract.onlyOwner
     DonateContract.whenActive DonateContract.whenNotActive
     DonateContract.balanceOf DonateContract.totalDonations
     DonateContract.targetAmount
     abi_decode_uint128 abi_decode_uint128_uint128 checked_mul_uint128
     transfer receive_value
     FHE.fromExternal FHE.asEuint128 FHE.asEaddress FHE.add FHE.allowThis
     FHE.allow FHE.requestDecryption FHE.checkSignatures FHE.fresh
     mbind M_bind bind mret M_ret ret require revert sload sstore emit gets
     modify
     with_storage with_fhe with_balance with_events with_transfers
     with_campaignActive with_charityOwner with_totalDonations
     with_targetAmount with_donorBalances with_encryptedDonorAddresses
     with_pendingWithdrawals
     this storage fhe balance events transfers nonpayable
     campaignActive charityOwner _totalDonations _targetAmount
     _donorBalances _encryptedDonorAddresses _pendingWithdrawals
     nextHandle acl counterRequest requestedHandles].

Ltac branch :=
  match goal with
  | |- context [if ?c then _ else _] => destruct c eqn:?
  | |- context [match ?c with Some _ => _ | None => _ end] => destruct c eqn:?
  | |- context [match ?c with [] => _ | _ :: _ => _ end] => destruct c eqn:?
  end.

Ltac symex := reduce_call; repeat (branch; reduce_call).

Ltac open_state s :=
  let st := fresh "st" in
  let f := fresh "f" in
  destruct s as [? st f ? ? ? ?]; destruct st, f.

Ltac bool_facts :=
  repeat match goal with
  | H : negb _ = true |- _ => apply negb_true_iff in H
  | H : negb _ = false |- _ => apply negb_false_iff in H
  | H : (_ && _) = true |- _ => apply andb_true_iff in H; destruct H
  | H : (_ || _) = false |- _ => apply orb_false_iff in H; destruct H
  | H : (_ || _) = true |- _ => apply orb_true_iff in H; destruct H
  | H : (_ =? _) = true |- _ => apply Z.eqb_eq in H
  | H : (_ =? _) = false |- _ => apply Z.eqb_neq in H
  | H : (_ <? _) = true |- _ => apply Z.ltb_lt in H
  | H : (_ <? _) = false |- _ => apply Z.ltb_ge in H
  | H : (_ <=? _) = true |- _ => apply Z.leb_le in H
  | H : (_ <=? _) = false |- _ => apply Z.leb_gt in H
  | H : bool_decide _ = true |- _ => apply bool_decide_eq_true in H
  | H : bool_decide _ = false |- _ => apply bool_decide_eq_false in H
  end.

Ltac facts := unfold isInitialized in *; cbn in *; bool_facts.

Ltac finish_call :=
  let H := fresh "Hcall" in
  intros H; first [ discriminate H | injection H as <- ]; cbn.

(** ** Requests are never overwritten *)

Lemma step_request_preserved s tx rid :
  rid < counterRequest (fhe s) ->
  requestedHandles (fhe (step s tx)) !! rid = requestedHandles (fhe s) !! rid
  /\ counterRequest (fhe s) <= counterRequest (fhe (step s tx)).
Proof.
  intros Hlt. open_state s. destruct tx; symex.
  all: try (split; [reflexivity | lia]).
  all: cbn in Hlt.
  all: split; [ by rewrite lookup_insert_ne by lia | lia ].
Qed.

Lemma run_request_preserved txs : forall s rid,
  rid < counterRequest (fhe s) ->
  requestedHandles (fhe (run s txs)) !! rid = requestedHandles (fhe s) !! rid
  /\ counterRequest (fhe s) <= counterRequest (fhe (run s txs)).
Proof.
  induction txs as [|tx txs IH]; intros s rid Hlt; cbn.
  - split; [reflexivity | lia].
  - destruct (step_request_preserved s tx rid Hlt) as [Hreq Hcnt].
    destruct (IH (step s tx) rid) as [Hreq' Hcnt']; [lia|].
    fold (run (step s tx) txs). rewrite Hreq', Hreq. split; [reflexivity | lia].
Qed.

(** ** The lifecycle flag *)

(** C1, as stated, fails: once [endCampaign] has returned, and while its
    decryption request is still pending (the callback has not run, nothing
    has been paid out), [campaignActive] is already false. *)
Lemma campaignActive_false_while_withdrawal_pending :
  let s := run (deployed 100 ∅)
             [StartCampaign 1 (enc 1000); Donate 2 300 (enc 300); EndCampaign 1] in
  _pendingWithdrawals (storage s) !! 0 = Some 1
  /\ transfers s = []
  /\ campaignActive (storage s) = false.
Proof. vm_compute. repeat split. Qed.

Lemma call_campaignActive s tx s' :
  call tx s = Ok tt s' ->
  match tx with
  | StartCampaign _ _ =>
      campaignActive (storage s) = false /\ campaignActive (storage s') = true
  | EndCampaign _ =>
      campaignActive (storage s) = true /\ campaignActive (storage s') = false
  | _ => campaignActive (storage s') = campaignActive (storage s)
  end.
Proof.
  revert s'. open_state s. intros s'. destruct tx; symex; finish_call.
  all: repeat split; try reflexivity.
  by destruct campaignActive0.
Qed.

(** C1, amended: [campaignActive] is true exactly from a successful
    [startCampaign] to the next successful [endCampaign].  A successful
    [startCampaign] needs the flag false and sets it; a successful
    [endCampaign] needs it true and clears it at once; every other call,
    both decryption callbacks included, leaves it as it is.  Hence after any
    trace the flag is what the last successful [startCampaign] or
    [endCampaign] of the trace made it. *)
Theorem campaignActive_lifecycle :
  (forall s tx s',
     call tx s = Ok tt s' ->
     match tx with
     | StartCampaign _ _ =>
         campaignActive (storage s) = false /\ campaignActive (storage s') = true
     | EndCampaign _ =>
         campaignActive (storage s) = true /\ campaignActive (storage s') = false
     | _ => campaignActive (storage s') = campaignActive (storage s)
     end)
  /\ (forall txs s,
        campaignActive (storage (run s txs))
        = flag_after (campaignActive (storage s)) s txs).
Proof.
  split; [exact call_campaignActive|].
  induction txs as [|tx txs IH]; intros s; [reflexivity|].
  change (run s (tx :: txs)) with (run (step s tx) txs).
  rewrite IH. cbn [flag_after]. f_equal.
  unfold step, commit.
  destruct (call tx s) as [[] s'|f] eqn:Hcall.
  - pose proof (call_campaignActive s tx s' Hcall) as H.
    destruct tx; rewrite ?Hcall; try exact H; apply H.
  - destruct tx; rewrite ?Hcall; reflexivity.
Qed.

Lemma campaignActive_lifecycle_witness :
  call (StartCampaign 1 (enc 1000)) (deployed 100 ∅)
    = Ok tt (step (deployed 100 ∅) (StartCampaign 1 (enc 1000)))
  /\ campaignActive (storage (deployed 100 ∅)) = false
  /\ campaignActive
       (storage (step (deployed 100 ∅) (StartCampaign 1 (enc 1000)))) = true.
Proof.
  assert (H : call (StartCampaign 1 (enc 1000)) (deployed 100 ∅)
              = Ok tt (step (deployed 100 ∅) (StartCampaign 1 (enc 1000))))
    by (vm_compute; reflexivity).
  split; [exact H |].
  exact (proj1 campaignActive_lifecycle _ (StartCampaign 1 (enc 1000)) _ H).
Defined.

(** ** Reachable states and well-formed handles *)

Lemma deployed_wf self rejecting : wf (deployed self rejecting).
Proof.
  unfold wf. vm_compute. repeat split; discriminate.
Qed.

Lemma step_wf s tx : wf s -> wf (step s tx).
Proof.
  unfold wf. open_state s. cbn. intros (Hn & Ht & Hg & Hd).
  destruct tx; symex; bool_facts; cbn in *; repeat split; try assumption; try lia.
  all: intros d h; destruct (decide (sender = d)) as [->|Hne];
    [ rewrite lookup_insert_eq; intros [= <-]; cbn; lia
    | rewrite lookup_insert_ne by done; apply Hd ].
Qed.

Lemma run_wf txs : forall s, wf s -> wf (run s txs).
Proof.
  induction txs as [|tx txs IH]; intros s Hs; [exact Hs|].
  apply (IH (step s tx)), step_wf, Hs.
Qed.

Lemma reachable_wf s : reachable s -> wf s.
Proof. intros (self & rej & txs & ->). apply run_wf, deployed_wf. Qed.

Lemma reachable_run s txs : reachable s -> reachable (run s txs).
Proof.
  intros (self & rej & txs0 & ->). exists self, rej, (txs0 ++ txs).
  unfold run. by rewrite fold_left_app.
Qed.

Lemma reachable_step s tx : reachable s -> reachable (step s tx).
Proof. apply (reachable_run s [tx]). Qed.

Lemma call_ok_step tx s s' : call tx s = Ok tt s' -> s' = step s tx.
Proof. intros H. unfold step, commit. by rewrite H. Qed.

(** ** The running total *)

Lemma fold_add_wrapped l : forall t,
  fold_left add_wrapped l (t mod 2 ^ 128) = (t + sum l) mod 2 ^ 128.
Proof.
  induction l as [|a l IH]; intros t.
  - cbn [fold_left sum fold_right]. by rewrite Z.add_0_r.
  - change (fold_left add_wrapped (a :: l) (t mod 2 ^ 128))
      with (fold_left add_wrapped l (add_wrapped (t mod 2 ^ 128) a)).
    change (sum (a :: l)) with (a + sum l).
    unfold add_wrapped at 2. rewrite Zplus_mod_idemp_l, IH.
    by rewrite Z.add_assoc.
Qed.

Lemma fold_add_wrapped_0 l :
  fold_left add_wrapped l 0 = sum l mod 2 ^ 128.
Proof. apply (fold_add_wrapped l 0). Qed.

Lemma step_total s tx :
  wf s -> is_start tx = false ->
  plain (_totalDonations (storage (step s tx)))
  = match tx, call tx s with
    | Donate _ _ x, Ok _ _ => add_wrapped (plain (_totalDonations (storage s))) (ext_plain x)
    | _, _ => plain (_totalDonations (storage s))
    end.
Proof.
  unfold wf. open_state s. cbn. intros (Hn & Ht & Hg & Hd) Hstart.
  destruct tx; try discriminate Hstart; symex; facts;
    try reflexivity; exfalso; lia.
Qed.

Lemma run_total txs : forall s,
  wf s -> Forall (fun tx => is_start tx = false) txs ->
  plain (_totalDonations (storage (run s txs)))
  = fold_left add_wrapped (successful_donations s txs)
      (plain (_totalDonations (storage s))).
Proof.
  induction txs as [|tx txs IH]; intros s Hwf Hall; [reflexivity|].
  inversion Hall as [|? ? Htx Hrest]; subst.
  change (run s (tx :: txs)) with (run (step s tx) txs).
  rewrite (IH _ (step_wf s tx Hwf) Hrest), (step_total s tx Hwf Htx).
  cbn [successful_donations].
  destruct tx; try reflexivity.
  destruct (call _ s); reflexivity.
Qed.

(** ** What the entry points do when they succeed *)

Lemma endCampaign_inv sender s s' :
  DonateContract.endCampaign sender s = Ok tt s' ->
  sender = charityOwner (storage s)
  /\ campaignActive (storage s) = true
  /\ s' = with_events (events s ++ [WithdrawalRequested sender (_totalDonations (storage s))])
            (with_storage
               (with_pendingWithdrawals
                  (<[ counterRequest (fhe s) := sender ]> (_pendingWithdrawals (storage s)))
                  (with_campaignActive false (storage s)))
               (with_fhe
                  {| nextHandle := nextHandle (fhe s);
                     acl := acl (fhe s);
                     counterRequest := counterRequest (fhe s) + 1;
                     requestedHandles :=
                       <[ counterRequest (fhe s) := [_totalDonations (storage s)] ]>
                         (requestedHandles (fhe s)) |} s)).
Proof.
  revert s'. open_state s. intros s'. symex; finish_call; facts.
  repeat split; assumption.
Qed.

Lemma callbackEndCampaign_inv rid cleartexts proof s s' :
  DonateContract.callbackEndCampaign rid cleartexts proof s = Ok tt s' ->
  exists hs d rest,
    requestedHandles (fhe s) !! rid = Some hs
    /\ proof = true
    /\ cleartexts = map plain hs
    /\ cleartexts = d :: rest
    /\ is_uint128 d = true
    /\ address_at (_pendingWithdrawals (storage s)) rid = charityOwner (storage s)
    /\ d <= balance s
    /\ (charityOwner (storage s) ∉ nonpayable s)
    /\ s' = with_events
              (events s ++ [Withdrawn (charityOwner (storage s)) d;
                            CampaignEnded (charityOwner (storage s)) d])
              (with_transfers (transfers s ++ [(charityOwner (storage s), d)])
                 (with_balance (balance s - d)
                    (with_storage
                       (with_pendingWithdrawals
                          (delete rid (_pendingWithdrawals (storage s))) (storage s))
                       s))).
Proof.
  revert s'. open_state s. intros s'. symex; finish_call.
  unfold FHE.verifySignatures in *. facts. subst.
  exists (e :: l0), z, l1. rewrite <- app_assoc.
  repeat split; try assumption; reflexivity.
Qed.

Lemma startCampaign_inv sender x s s' :
  DonateContract.startCampaign sender x s = Ok tt s' ->
  campaignActive (storage s) = false
  /\ ext_proof_ok x = true
  /\ charityOwner (storage s') = sender
  /\ campaignActive (storage s') = true
  /\ _targetAmount (storage s') = {| hid := nextHandle (fhe s); plain := ext_plain x |}
  /\ _totalDonations (storage s') = {| hid := nextHandle (fhe s) + 1; plain := 0 |}
  /\ _donorBalances (storage s') = _donorBalances (storage s)
  /\ _pendingWithdrawals (storage s') = _pendingWithdrawals (storage s).
Proof.
  revert s'. open_state s. intros s'. symex; finish_call; facts.
  repeat split; assumption.
Qed.

(** ** Starting a campaign *)

(** C6: [startCampaign] reverts with "Campaign active" while a campaign is
    active.  Otherwise, for an encrypted target whose input proof verifies,
    it succeeds, records the caller as owner, sets the campaign active,
    stores the handle of the supplied target (the one [FHE.fromExternal]
    returns for it), stores a fresh encryption of zero as the total, and
    grants the contract and the owner access to both handles. *)
Theorem startCampaign_spec sender x s :
  (campaignActive (storage s) = true ->
   DonateContract.startCampaign sender x s = Revert (Error "Campaign active"))
  /\ (campaignActive (storage s) = false -> ext_proof_ok x = true ->
      exists s',
        DonateContract.startCampaign sender x s = Ok tt s'
        /\ charityOwner (storage s') = sender
        /\ campaignActive (storage s') = true
        /\ FHE.fromExternal x s
             = Ok (_targetAmount (storage s')) (commit (FHE.fromExternal x) s)
        /\ plain (_targetAmount (storage s')) = ext_plain x
        /\ plain (_totalDonations (storage s')) = 0
        /\ hid (_totalDonations (storage s')) <> hid (_targetAmount (storage s'))
        /\ (hid (_totalDonations (storage s')), this s') ∈ acl (fhe s')
        /\ (hid (_totalDonations (storage s')), sender) ∈ acl (fhe s')
        /\ (hid (_targetAmount (storage s')), this s') ∈ acl (fhe s')
        /\ (hid (_targetAmount (storage s')), sender) ∈ acl (fhe s')).
Proof.
  open_state s. cbn. split.
  - intros ->. reflexivity.
  - intros -> Hx. eexists. split.
    + symex; try discriminate; reflexivity.
    + cbn. unfold commit, FHE.fromExternal. rewrite Hx. cbn.
      repeat split; try lia; set_solver.
Qed.

Lemma startCampaign_spec_witness :
  campaignActive (storage (deployed 100 ∅)) = false
  /\ ext_proof_ok (enc 1000) = true
  /\ exists s',
       DonateContract.startCampaign 1 (enc 1000) (deployed 100 ∅) = Ok tt s'
       /\ charityOwner (storage s') = 1
       /\ campaignActive (storage s') = true
       /\ plain (_targetAmount (storage s')) = 1000
       /\ plain (_totalDonations (storage s')) = 0.
Proof.
  assert (Ha : campaignActive (storage (deployed 100 ∅)) = false) by reflexivity.
  assert (Hx : ext_proof_ok (enc 1000) = true) by reflexivity.
  split; [exact Ha|]. split; [exact Hx|].
  destruct (proj2 (startCampaign_spec 1 (enc 1000) (deployed 100 ∅)) Ha Hx)
    as (s' & H1 & H2 & H3 & _ & H5 & H6 & _).
  exists s'. repeat split; assumption.
Defined.

(** ** Sum of the donations *)

(** C2, as stated, fails: two accepted donations of 2^128 - 1 and 1, each
    within the 128-bit range, leave a total whose decryption is 0, and 0 is
    what the end-campaign callback is given and pays out, not their sum
    2^128. *)
Lemma donations_sum_wraps :
  let txs := [Donate 2 1 (enc uint128_max); Donate 3 1 (enc 1)] in
  let s1 := run (deployed 100 ∅) [StartCampaign 1 (enc 5)] in
  let s := run s1 (txs ++ [EndCampaign 1]) in
  successful_donations s1 txs = [uint128_max; 1]
  /\ map plain <$> requestedHandles (fhe s) !! 0 = Some [0]
  /\ events (step s (CallbackEndCampaign 0 [0] true))
     = events s ++ [Withdrawn 1 0; CampaignEnded 1 0]
  /\ DonateContract.callbackEndCampaign 0 [uint128_max + 1] true s
     = Revert InvalidKMSSignatures
  /\ 0 <> uint128_max + 1.
Proof. vm_compute. repeat split; discriminate. Qed.

(** C2, amended: over one campaign (after a successful [startCampaign], any
    calls other than [startCampaign] and [endCampaign], then a successful
    [endCampaign]), the cleartext that a successful end-campaign callback for
    that request receives, however much later it arrives, is the sum of the
    amounts of the successful donations modulo 2^128.  It is the exact sum
    whenever the amounts are non-negative and their sum fits 128 bits. *)
Theorem donations_total_delivered s0 owner x s1 txs sE later cleartexts proof sF :
  reachable s0 ->
  DonateContract.startCampaign owner x s0 = Ok tt s1 ->
  Forall (fun tx => is_lifecycle tx = false) txs ->
  DonateContract.endCampaign owner (run s1 txs) = Ok tt sE ->
  DonateContract.callbackEndCampaign
    (counterRequest (fhe (run s1 txs))) cleartexts proof (run sE later) = Ok tt sF ->
  let amounts := successful_donations s1 txs in
  let total := sum amounts mod 2 ^ 128 in
  cleartexts = [total]
  /\ events sF = events (run sE later)
                 ++ [Withdrawn (charityOwner (storage (run sE later))) total;
                     CampaignEnded (charityOwner (storage (run sE later))) total]
  /\ (Forall (fun a => 0 <= a) amounts -> sum amounts <= uint128_max ->
      total = sum amounts).
Proof.
  intros Hreach Hstart Hall Hend Hcb amounts total.
  assert (Hwf1 : wf s1).
  { rewrite (call_ok_step (StartCampaign owner x) _ _ Hstart).
    apply reachable_wf, reachable_step, Hreach. }
  assert (Htot : plain (_totalDonations (storage (run s1 txs))) = total).
  { rewrite run_total; [| exact Hwf1 |].
    - destruct (startCampaign_inv _ _ _ _ Hstart) as (_ & _ & _ & _ & _ & -> & _).
      apply fold_add_wrapped_0.
    - eapply Forall_impl; [exact Hall|]. intros [] ?; done. }
  destruct (endCampaign_inv _ _ _ Hend) as (_ & _ & HsE).
  set (rid := counterRequest (fhe (run s1 txs))) in *.
  assert (Hreq : requestedHandles (fhe (run sE later)) !! rid
                 = Some [_totalDonations (storage (run s1 txs))]).
  { assert (Hlt : rid < counterRequest (fhe sE))
      by (rewrite HsE; cbn; fold rid; lia).
    destruct (run_request_preserved later sE rid Hlt) as [Hq _].
    rewrite Hq, HsE. cbn. fold rid. apply lookup_insert_eq. }
  destruct (callbackEndCampaign_inv _ _ _ _ _ Hcb)
    as (hs & d & rest & Hhs & _ & Hct & Hd & _ & _ & _ & _ & HsF).
  rewrite Hreq in Hhs. injection Hhs as <-. cbn in Hct. rewrite Htot in Hct.
  split; [exact Hct|]. split.
  - rewrite HsF. cbn. rewrite Hct in Hd. by injection Hd as <- <-.
  - intros Hpos Hfit. subst total. apply Z.mod_small. split.
    + clear -Hpos. induction Hpos; cbn; [lia|]. unfold sum in IHHpos. lia.
    + unfold uint128_max in Hfit. lia.
Qed.

Lemma donations_total_delivered_witness :
  let s0 := deployed 100 ∅ in
  let s1 := step s0 (StartCampaign 1 (enc 1000)) in
  let txs := [Donate 2 300 (enc 300); RequestProgress; Donate 3 800 (enc 800)] in
  let sE := step (run s1 txs) (EndCampaign 1) in
  let later := [CallbackProgress 0 [300; 1000] true] in
  let sF := step (run sE later) (CallbackEndCampaign 1 [1100] true) in
  successful_donations s1 txs = [300; 800]
  /\ [1100] = [sum (successful_donations s1 txs) mod 2 ^ 128]
  /\ events sF = events (run sE later) ++ [Withdrawn 1 1100; CampaignEnded 1 1100].
Proof.
  intros s0 s1 txs sE later sF.
  assert (H0 : reachable s0) by (exists 100, ∅, []; reflexivity).
  assert (H1 : DonateContract.startCampaign 1 (enc 1000) s0 = Ok tt s1)
    by (vm_compute; reflexivity).
  assert (H2 : Forall (fun tx => is_lifecycle tx = false) txs)
    by (repeat constructor).
  assert (H3 : DonateContract.endCampaign 1 (run s1 txs) = Ok tt sE)
    by (vm_compute; reflexivity).
  assert (H4 : DonateContract.callbackEndCampaign
                 (counterRequest (fhe (run s1 txs))) [1100] true (run sE later)
               = Ok tt sF)
    by (vm_compute; reflexivity).
  split; [vm_compute; reflexivity|].
  destruct (donations_total_delivered s0 1 (enc 1000) s1 txs sE later [1100] true sF
              H0 H1 H2 H3 H4) as (Ha & Hb & _).
  split; [exact Ha|]. rewrite Hb. vm_compute. reflexivity.
Defined.

(** ** Request correlation in the callbacks *)

(** A request id under which no handles were saved is rejected by both
    callbacks, before anything else happens. *)
Lemma unknown_request_rejected rid cleartexts proof s :
  requestedHandles (fhe s) !! rid = None ->
  DonateContract.callbackEndCampaign rid cleartexts proof s
    = Revert NoHandleFoundForRequestID
  /\ DonateContract.callbackProgress rid cleartexts proof s
     = Revert NoHandleFoundForRequestID.
Proof.
  open_state s. cbn. intros Hnone.
  split; reduce_call; rewrite Hnone; reflexivity.
Qed.

(** Request ids are issued from the counter: an id that was never issued has
    no saved handles in any reachable state. *)
Lemma step_requests_below_counter s tx :
  (forall rid, counterRequest (fhe s) <= rid -> requestedHandles (fhe s) !! rid = None) ->
  forall rid, counterRequest (fhe (step s tx)) <= rid ->
              requestedHandles (fhe (step s tx)) !! rid = None.
Proof.
  open_state s. cbn. intros Hinv.
  destruct tx; symex; cbn; intros r Hr; try (apply Hinv; lia).
  all: rewrite lookup_insert_ne by lia; apply Hinv; lia.
Qed.

Lemma never_issued_unknown s :
  reachable s ->
  forall rid, counterRequest (fhe s) <= rid -> requestedHandles (fhe s) !! rid = None.
Proof.
  intros (self & rej & txs & ->). revert txs.
  apply (rev_ind (fun txs => forall rid,
    counterRequest (fhe (run (deployed self rej) txs)) <= rid ->
    requestedHandles (fhe (run (deployed self rej) txs)) !! rid = None)).
  - intros rid _. apply lookup_empty.
  - intros tx txs IH. unfold run. rewrite fold_left_app. cbn [fold_left].
    apply step_requests_below_counter, IH.
Qed.

(** The end-campaign callback deletes the pending withdrawal it serves, and
    with no pending withdrawal under the id it cannot succeed again (the
    owner being a real account, not the zero address). *)
Lemma callbackEndCampaign_consumes rid cleartexts proof s s' :
  DonateContract.callbackEndCampaign rid cleartexts proof s = Ok tt s' ->
  _pendingWithdrawals (storage s') !! rid = None.
Proof.
  intros H. destruct (callbackEndCampaign_inv _ _ _ _ _ H)
    as (? & ? & ? & _ & _ & _ & _ & _ & _ & _ & _ & ->).
  cbn. apply lookup_delete_eq.
Qed.

Lemma callbackEndCampaign_needs_pending rid cleartexts proof s s' :
  _pendingWithdrawals (storage s) !! rid = None ->
  charityOwner (storage s) <> 0 ->
  DonateContract.callbackEndCampaign rid cleartexts proof s <> Ok tt s'.
Proof.
  intros Hnone Howner H.
  destruct (callbackEndCampaign_inv _ _ _ _ _ H)
    as (? & ? & ? & _ & _ & _ & _ & _ & Hw & _).
  unfold address_at in Hw. rewrite Hnone in Hw. cbn in Hw. congruence.
Qed.

(** The progress callback changes nothing but the event log. *)
Lemma callbackProgress_inv rid cleartexts proof s s' :
  DonateContract.callbackProgress rid cleartexts proof s = Ok tt s' ->
  exists hs total target,
    requestedHandles (fhe s) !! rid = Some hs
    /\ proof = true
    /\ cleartexts = map plain hs
    /\ (exists rest, cleartexts = total :: target :: rest)
    /\ s' = with_events
              (events s ++ [CampaignProgress total target
                              (if 0 <? target then total * 100 / target else 0)]) s.
Proof.
  revert s'. open_state s. intros s'. symex; finish_call.
  all: unfold FHE.verifySignatures in *.
  all: repeat match goal with
       | H : (_ && _) = true |- _ => apply andb_true_iff in H; destruct H
       | H : bool_decide _ = true |- _ => apply bool_decide_eq_true in H
       end; subst.
  all: eexists (_ :: _), _, _; repeat split; eauto.
  all: match goal with H : (0 <? _) = _ |- _ => rewrite H end; reflexivity.
Qed.

(** C3 at its failing input: request 0, a progress request, has been
    answered and its [CampaignProgress] event emitted; the same completion
    delivered a second time is accepted again and emits the event again.
    ([callbackEndCampaign] does reject its own replay, see
    [callbackEndCampaign_consumes] and [callbackEndCampaign_needs_pending].) *)
Lemma callbackProgress_replay_accepted :
  let s0 := run (deployed 100 ∅)
              [StartCampaign 1 (enc 1000); Donate 2 300 (enc 300); RequestProgress] in
  let s1 := step s0 (CallbackProgress 0 [300; 1000] true) in
  events s1 = events s0 ++ [CampaignProgress 300 1000 30]
  /\ DonateContract.callbackProgress 0 [300; 1000] true s1
     = Ok tt (with_events (events s1 ++ [CampaignProgress 300 1000 30]) s1).
Proof. vm_compute. split; reflexivity. Qed.

(** ** The end-campaign callback *)

(** C4, as stated, fails: the owner ends a campaign and starts the next one
    before the oracle answers.  The verified callback for the first
    campaign's request then finds enough balance, pays the decrypted total
    to the owner, and the resulting state is an active campaign. *)
Lemma callbackEndCampaign_leaves_campaign_active :
  let s := run (deployed 100 ∅)
             [StartCampaign 1 (enc 10); Donate 2 5 (enc 5); EndCampaign 1;
              StartCampaign 1 (enc 20)] in
  balance s = 5
  /\ FHE.checkSignatures 0 [5] true s = Ok tt s
  /\ match DonateContract.callbackEndCampaign 0 [5] true s with
     | Ok _ s' => transfers s' = [(1, 5)] /\ campaignActive (storage s') = true
     | Revert _ => False
     end.
Proof. vm_compute. repeat split. Qed.

(** Two more ways in which a verified callback that finds enough balance
    does not pay: the campaign has been restarted by another account, or the
    owner is an account that rejects plain transfers. *)
Example callbackEndCampaign_not_paid :
  let other := run (deployed 100 ∅)
                 [StartCampaign 1 (enc 10); Donate 2 5 (enc 5); EndCampaign 1;
                  StartCampaign 3 (enc 20)] in
  let rejecting := run (deployed 100 {[ 1 ]})
                     [StartCampaign 1 (enc 10); Donate 2 5 (enc 5); EndCampaign 1] in
  DonateContract.callbackEndCampaign 0 [5] true other = Revert (Error "Not owner")
  /\ DonateContract.callbackEndCampaign 0 [5] true rejecting = Revert TransferFailed.
Proof. vm_compute. split; reflexivity. Qed.

(** C4, amended: on a verified end-campaign callback whose recorded
    withdrawer is the current owner, with decrypted total [d]: if the held
    balance is below [d] the call reverts with "Insufficient balance" (and so
    transfers nothing); otherwise, the owner's account accepting the
    transfer, [d] is transferred to the owner and [Withdrawn] then
    [CampaignEnded] are emitted, in that order, while [campaignActive] is
    left as it was (it was cleared by [endCampaign]; it is true again when a
    new campaign has been started since).  Whenever the callback succeeds,
    the amount paid out is at most the balance held on entry. *)
Theorem callbackEndCampaign_spec rid cleartexts proof s d :
  FHE.checkSignatures rid cleartexts proof s = Ok tt s ->
  abi_decode_uint128 cleartexts s = Ok d s ->
  address_at (_pendingWithdrawals (storage s)) rid = charityOwner (storage s) ->
  (balance s < d ->
   DonateContract.callbackEndCampaign rid cleartexts proof s
   = Revert (Error "Insufficient balance")
   /\ step s (CallbackEndCampaign rid cleartexts proof) = s)
  /\ (d <= balance s -> charityOwner (storage s) ∉ nonpayable s ->
      exists s',
        DonateContract.callbackEndCampaign rid cleartexts proof s = Ok tt s'
        /\ transfers s' = transfers s ++ [(charityOwner (storage s), d)]
        /\ balance s' = balance s - d
        /\ events s' = events s ++ [Withdrawn (charityOwner (storage s)) d;
                                    CampaignEnded (charityOwner (storage s)) d]
        /\ campaignActive (storage s') = campaignActive (storage s))
  /\ (forall s',
        DonateContract.callbackEndCampaign rid cleartexts proof s = Ok tt s' ->
        transfers s' = transfers s ++ [(charityOwner (storage s), d)]
        /\ d <= balance s).
Proof.
  intros Hsig Hdec Hwho. split; [|split].
  - assert (Hrev : balance s < d ->
                   DonateContract.callbackEndCampaign rid cleartexts proof s
                   = Revert (Error "Insufficient balance")).
    { revert Hsig Hdec Hwho. open_state s.
      cbn [storage balance charityOwner _pendingWithdrawals].
      symex; try discriminate; intros _ [= <-] Hwho Hlt; facts; try reflexivity;
        try (exfalso; lia); congruence. }
    intros Hlt. split; [exact (Hrev Hlt)|].
    unfold step, commit, call. by rewrite (Hrev Hlt).
  - revert Hsig Hdec Hwho. open_state s.
    cbn [storage balance charityOwner _pendingWithdrawals nonpayable transfers events campaignActive].
    symex; try discriminate; intros _ [= <-] Hwho Hle Hpay; facts;
      try (exfalso; lia); try congruence; try (exfalso; set_solver).
    all: eexists; split; [reflexivity|]; cbn; rewrite Hwho, <- ?app_assoc;
      repeat split; reflexivity.
  - intros s' Hok.
    destruct (callbackEndCampaign_inv _ _ _ _ _ Hok)
      as (hs & d' & rest & _ & _ & _ & Hd & Hu & _ & Hle & _ & ->).
    assert (d' = d) as ->.
    { revert Hdec. unfold abi_decode_uint128. rewrite Hd, Hu. by intros [= ->]. }
    split; [reflexivity | exact Hle].
Qed.

Lemma callbackEndCampaign_spec_witness :
  let s := run (deployed 100 ∅)
             [StartCampaign 1 (enc 1000); Donate 2 300 (enc 300);
              Donate 3 800 (enc 800); EndCampaign 1] in
  balance s = 1100
  /\ exists s',
       DonateContract.callbackEndCampaign 0 [1100] true s = Ok tt s'
       /\ transfers s' = transfers s ++ [(1, 1100)]
       /\ balance s' = 0
       /\ events s' = events s ++ [Withdrawn 1 1100; CampaignEnded 1 1100]
       /\ campaignActive (storage s') = false.
Proof.
  intros s.
  assert (H1 : FHE.checkSignatures 0 [1100] true s = Ok tt s)
    by (vm_compute; reflexivity).
  assert (H2 : abi_decode_uint128 [1100] s = Ok 1100 s)
    by (vm_compute; reflexivity).
  assert (H3 : address_at (_pendingWithdrawals (storage s)) 0 = charityOwner (storage s))
    by (vm_compute; reflexivity).
  assert (H4 : 1100 <= balance s) by (vm_compute; discriminate).
  assert (H5 : charityOwner (storage s) ∉ nonpayable s).
  { replace (nonpayable s) with (∅ : gset Z) by (vm_compute; reflexivity).
    apply not_elem_of_empty. }
  split; [vm_compute; reflexivity|].
  destruct (proj1 (proj2 (callbackEndCampaign_spec 0 [1100] true s 1100 H1 H2 H3)) H4 H5)
    as (s' & Ha & Hb & Hc & Hd & He).
  exists s'. split; [exact Ha|]. split; [exact Hb|].
  split; [rewrite Hc; vm_compute; reflexivity|].
  split; [exact Hd|]. rewrite He. vm_compute. reflexivity.
Defined.

(** ** The progress percentage *)

(** C5, as stated, fails: the product [total * 100] is computed at type
    [uint128] with checked arithmetic.  Here a campaign holds an encrypted
    total of 2^128 - 1 and a target of 1; the verified progress completion
    for these two 128-bit values reverts with [Panic(0x11)]. *)
Lemma callbackProgress_overflow_reverts :
  let s := run (deployed 100 ∅)
             [StartCampaign 1 (enc 1); Donate 2 1 (enc uint128_max); RequestProgress] in
  map plain <$> requestedHandles (fhe s) !! 0 = Some [uint128_max; 1]
  /\ is_uint128 uint128_max = true /\ is_uint128 1 = true
  /\ DonateContract.callbackProgress 0 [uint128_max; 1] true s = Revert (Panic 17).
Proof. vm_compute. repeat split. Qed.

(** C5, amended: for a verified pair of 128-bit values [(total, target)],
    the progress callback succeeds and emits the percentage 0 when
    [target = 0]; when [target > 0] and [total * 100] fits 128 bits it
    succeeds and emits [floor(total * 100 / target)], with no cap; when
    [target > 0] and [total * 100] exceeds the 128-bit range it reverts with
    the arithmetic-overflow panic. *)
Theorem callbackProgress_spec rid cleartexts proof s total target :
  FHE.checkSignatures rid cleartexts proof s = Ok tt s ->
  abi_decode_uint128_uint128 cleartexts s = Ok (total, target) s ->
  (target = 0 ->
   DonateContract.callbackProgress rid cleartexts proof s
   = Ok tt (with_events (events s ++ [CampaignProgress total 0 0]) s))
  /\ (0 < target -> total * 100 <= uint128_max ->
      DonateContract.callbackProgress rid cleartexts proof s
      = Ok tt (with_events
                 (events s ++ [CampaignProgress total target (total * 100 / target)]) s)
      /\ target * (total * 100 / target) <= total * 100
         < target * (total * 100 / target + 1))
  /\ (0 < target -> uint128_max < total * 100 ->
      DonateContract.callbackProgress rid cleartexts proof s = Revert (Panic 17)).
Proof.
  intros Hsig Hdec. split; [|split].
  - revert Hsig Hdec. open_state s. symex; try discriminate;
      intros _ [= <- <-] Ht; facts; subst; try reflexivity; exfalso; lia.
  - intros Hpos Hfit. split.
    + revert Hsig Hdec. open_state s. symex; try discriminate;
        intros _ [= <- <-]; facts; try reflexivity; exfalso; lia.
    + pose proof (Z.mul_div_le (total * 100) target Hpos).
      pose proof (Z.mul_succ_div_gt (total * 100) target Hpos). lia.
  - intros Hpos Hover. revert Hsig Hdec. open_state s. symex; try discriminate;
      intros _ [= <- <-]; facts; try reflexivity; exfalso; lia.
Qed.

Lemma callbackProgress_spec_witness :
  let s := run (deployed 100 ∅)
             [StartCampaign 1 (enc 200); Donate 2 250 (enc 250); RequestProgress] in
  DonateContract.callbackProgress 0 [250; 200] true s
  = Ok tt (with_events (events s ++ [CampaignProgress 250 200 125]) s).
Proof.
  intros s.
  assert (H1 : FHE.checkSignatures 0 [250; 200] true s = Ok tt s)
    by (vm_compute; reflexivity).
  assert (H2 : abi_decode_uint128_uint128 [250; 200] s = Ok (250, 200) s)
    by (vm_compute; reflexivity).
  assert (H3 : 0 < 200) by lia.
  assert (H4 : 250 * 100 <= uint128_max) by (vm_compute; discriminate).
  exact (proj1 (proj1 (proj2 (callbackProgress_spec 0 [250; 200] true s 250 200 H1 H2))
                  H3 H4)).
Defined.

(** The examples of the specification, run through the contract. *)
Example percentage_examples :
  let s := run (deployed 100 ∅)
             [StartCampaign 1 (enc 200); Donate 2 50 (enc 50); RequestProgress;
              UpdateTarget 1 (enc 0); RequestProgress] in
  events (step s (CallbackProgress 0 [50; 200] true))
    = events s ++ [CampaignProgress 50 200 25]
  /\ events (step s (CallbackProgress 1 [50; 0] true))
    = events s ++ [CampaignProgress 50 0 0].
Proof. vm_compute. split; reflexivity. Qed.

(** ** Rejected donations *)

(** C8: [donate] reverts with "Campaign not active" whenever no campaign is
    active; in an active campaign it reverts with "Donation > 0" when the
    paid amount is zero and with "Amount too large" when it exceeds the
    largest 128-bit value.  In each of these cases the state after the call,
    the contract's balance included, is the state before it. *)
Theorem donate_rejected sender value x s :
  (campaignActive (storage s) = false ->
   DonateContract.donate sender value x s = Revert (Error "Campaign not active"))
  /\ (campaignActive (storage s) = true -> value = 0 ->
      DonateContract.donate sender value x s = Revert (Error "Donation > 0"))
  /\ (campaignActive (storage s) = true -> uint128_max < value ->
      DonateContract.donate sender value x s = Revert (Error "Amount too large"))
  /\ (campaignActive (storage s) = false \/ value = 0 \/ uint128_max < value ->
      step s (Donate sender value x) = s).
Proof.
  open_state s. cbn [storage campaignActive]. repeat split.
  - intros ->. reflexivity.
  - intros -> ->. reflexivity.
  - intros -> Hbig. symex; facts; try reflexivity; exfalso; unfold uint128_max in *; lia.
  - intros Hcase. symex; facts; try reflexivity; exfalso.
    all: destruct Hcase as [Hc | [Hc | Hc]]; try discriminate Hc; lia.
Qed.

Lemma donate_rejected_witness :
  let s := run (deployed 100 ∅) [StartCampaign 1 (enc 1000)] in
  DonateContract.donate 2 5 (enc 5) (deployed 100 ∅)
    = Revert (Error "Campaign not active")
  /\ DonateContract.donate 2 0 (enc 5) s = Revert (Error "Donation > 0")
  /\ DonateContract.donate 2 (2 ^ 128) (enc 5) s = Revert (Error "Amount too large")
  /\ step s (Donate 2 (2 ^ 128) (enc 5)) = s.
Proof.
  intros s.
  assert (H0 : campaignActive (storage (deployed 100 ∅)) = false) by reflexivity.
  assert (H1 : campaignActive (storage s) = true) by reflexivity.
  assert (H2 : uint128_max < 2 ^ 128) by reflexivity.
  split; [exact (proj1 (donate_rejected 2 5 (enc 5) (deployed 100 ∅)) H0)|].
  split; [exact (proj1 (proj2 (donate_rejected 2 0 (enc 5) s)) H1 eq_refl)|].
  split; [exact (proj1 (proj2 (proj2 (donate_rejected 2 (2 ^ 128) (enc 5) s))) H1 H2)|].
  exact (proj2 (proj2 (proj2 (donate_rejected 2 (2 ^ 128) (enc 5) s)))
           (or_intror (or_intror H2))).
Defined.

(** ** Updating the target *)

(** C10: a successful [updateTarget] replaces the target handle, grants the
    contract and the owner access to the new handle and emits
    [TargetUpdated]; the lifecycle flag, the owner, the encrypted total,
    every donor's balance, the pending withdrawals, the decryption requests,
    the contract's balance and the access grants of every other handle are
    unchanged. *)
Theorem updateTarget_frame sender x s s' :
  DonateContract.updateTarget sender x s = Ok tt s' ->
  campaignActive (storage s') = campaignActive (storage s)
  /\ charityOwner (storage s') = charityOwner (storage s)
  /\ _totalDonations (storage s') = _totalDonations (storage s)
  /\ (forall donor, DonateContract.balanceOf s' donor = DonateContract.balanceOf s donor)
  /\ _encryptedDonorAddresses (storage s') = _encryptedDonorAddresses (storage s)
  /\ _pendingWithdrawals (storage s') = _pendingWithdrawals (storage s)
  /\ requestedHandles (fhe s') = requestedHandles (fhe s)
  /\ counterRequest (fhe s') = counterRequest (fhe s)
  /\ balance s' = balance s
  /\ transfers s' = transfers s
  /\ _targetAmount (storage s') = {| hid := nextHandle (fhe s); plain := ext_plain x |}
  /\ (forall h a, h <> nextHandle (fhe s) ->
                  (h, a) ∈ acl (fhe s') <-> (h, a) ∈ acl (fhe s))
  /\ (forall a, (nextHandle (fhe s), a) ∈ acl (fhe s') <->
                a = this s \/ a = charityOwner (storage s)
                \/ (nextHandle (fhe s), a) ∈ acl (fhe s))
  /\ events s' = events s ++ [TargetUpdated (_targetAmount (storage s'))].
Proof.
  revert s'. open_state s. intros s'. symex; finish_call. facts. subst.
  repeat split; try reflexivity;
    rewrite ?elem_of_union, ?elem_of_singleton; intuition congruence.
Qed.

Lemma updateTarget_frame_witness :
  let s := run (deployed 100 ∅) [StartCampaign 1 (enc 1000); Donate 2 300 (enc 300)] in
  let s' := step s (UpdateTarget 1 (enc 2000)) in
  plain (_targetAmount (storage s')) = 2000
  /\ campaignActive (storage s') = campaignActive (storage s)
  /\ _totalDonations (storage s') = _totalDonations (storage s)
  /\ DonateContract.balanceOf s' 2 = DonateContract.balanceOf s 2.
Proof.
  intros s s'.
  assert (H : DonateContract.updateTarget 1 (enc 2000) s = Ok tt s')
    by (vm_compute; reflexivity).
  destruct (updateTarget_frame 1 (enc 2000) s s' H)
    as (Ha & _ & Ht & Hb & _ & _ & _ & _ & _ & _ & Hg & _).
  split; [rewrite Hg; reflexivity|].
  split; [exact Ha|]. split; [exact Ht | exact (Hb 2)].
Defined.

(** ** Donor balances *)

Lemma handle_at_insert_eq (m : gmap Z ehandle) k h :
  handle_at (<[ k := h ]> m) k = h.
Proof. unfold handle_at. by rewrite lookup_insert_eq. Qed.

Lemma handle_at_insert_ne (m : gmap Z ehandle) k k' h :
  k <> k' -> handle_at (<[ k := h ]> m) k' = handle_at m k'.
Proof. intros Hne. unfold handle_at. by rewrite lookup_insert_ne. Qed.

Lemma step_balanceOf_other s tx donor :
  (forall value x, tx <> Donate donor value x) ->
  DonateContract.balanceOf (step s tx) donor = DonateContract.balanceOf s donor.
Proof.
  open_state s. intros Hne. destruct tx; symex; try reflexivity.
  all: apply handle_at_insert_ne; intros ->; by eapply Hne.
Qed.

Lemma step_balanceOf_plain s tx donor :
  wf s ->
  plain (DonateContract.balanceOf (step s tx) donor)
  = match tx, call tx s with
    | Donate d _ x, Ok _ _ =>
        if d =? donor
        then add_wrapped (plain (DonateContract.balanceOf s donor)) (ext_plain x)
        else plain (DonateContract.balanceOf s donor)
    | _, _ => plain (DonateContract.balanceOf s donor)
    end.
Proof.
  unfold wf. open_state s. cbn [fhe storage nextHandle _totalDonations _targetAmount _donorBalances].
  intros (Hn & Ht & Hg & Hd).
  destruct tx; symex; try reflexivity.
  all: facts; subst;
    rewrite ?handle_at_insert_eq, ?handle_at_insert_ne by done;
    try reflexivity; try (exfalso; lia).
  all: unfold handle_at in *;
    destruct (_donorBalances0 !! donor) as [h|] eqn:Hh; cbn in *;
    [ exfalso; by eapply Hd | reflexivity ].
Qed.

Lemma run_balanceOf_plain txs donor : forall s,
  wf s ->
  plain (DonateContract.balanceOf (run s txs) donor)
  = fold_left add_wrapped (donations_by donor s txs)
      (plain (DonateContract.balanceOf s donor)).
Proof.
  induction txs as [|tx txs IH]; intros s Hwf; [reflexivity|].
  change (run s (tx :: txs)) with (run (step s tx) txs).
  rewrite (IH _ (step_wf s tx Hwf)), (step_balanceOf_plain s tx donor Hwf).
  cbn [donations_by].
  destruct tx; try reflexivity.
  destruct (call _ s); [|reflexivity].
  destruct (sender =? donor); reflexivity.
Qed.

(** C7, as stated, fails: [startCampaign] does not reset the donors'
    balances.  Donor 2 gives 5 in a first campaign, which is ended and paid
    out; when the second campaign starts the total is a fresh zero but the
    donor's balance still decrypts to 5, and after a donation of 7 in the
    second campaign, the donor's only one there, it decrypts to 12. *)
Lemma donor_balance_spans_campaigns :
  let s := run (deployed 100 ∅)
             [StartCampaign 1 (enc 100); Donate 2 5 (enc 5); EndCampaign 1;
              CallbackEndCampaign 0 [5] true; StartCampaign 1 (enc 100)] in
  let txs := [Donate 2 7 (enc 7)] in
  campaignActive (storage s) = true
  /\ plain (DonateContract.totalDonations s) = 0
  /\ plain (DonateContract.balanceOf s 2) = 5
  /\ donations_by 2 s txs = [7]
  /\ plain (DonateContract.balanceOf (run s txs) 2) = 12.
Proof. vm_compute. repeat split. Qed.

(** C7, amended: a donor's recorded balance is never deleted nor reset.
    Every call other than a [donate] of that donor, [endCampaign], its
    callback and [startCampaign] included, leaves [balanceOf donor] the very
    same handle; and after any history since deployment, spanning any number
    of campaigns, the balance decrypts to the sum modulo 2^128 of all the
    successful donations of that donor. *)
Theorem donor_balance_persistent donor :
  (forall s tx, (forall value x, tx <> Donate donor value x) ->
     DonateContract.balanceOf (step s tx) donor = DonateContract.balanceOf s donor)
  /\ (forall self rejecting txs,
        plain (DonateContract.balanceOf (run (deployed self rejecting) txs) donor)
        = sum (donations_by donor (deployed self rejecting) txs) mod 2 ^ 128).
Proof.
  split.
  - intros s tx Htx. by apply step_balanceOf_other.
  - intros self rejecting txs.
    rewrite run_balanceOf_plain by apply deployed_wf.
    apply fold_add_wrapped_0.
Qed.

Lemma donor_balance_persistent_witness :
  let s := run (deployed 100 ∅)
             [StartCampaign 1 (enc 100); Donate 2 5 (enc 5); EndCampaign 1] in
  DonateContract.balanceOf (step s (StartCampaign 3 (enc 50))) 2
    = DonateContract.balanceOf s 2
  /\ plain (DonateContract.balanceOf
             (run (deployed 100 ∅)
                [StartCampaign 1 (enc 100); Donate 2 5 (enc 5); EndCampaign 1;
                 StartCampaign 3 (enc 50); Donate 2 7 (enc 7)]) 2)
     = 12.
Proof.
  intros s.
  assert (Hne : forall value x, StartCampaign 3 (enc 50) <> Donate 2 value x)
    by (intros value x; discriminate).
  split.
  - exact (proj1 (donor_balance_persistent 2) s (StartCampaign 3 (enc 50)) Hne).
  - rewrite (proj2 (donor_balance_persistent 2)). vm_compute. reflexivity.
Defined.

(** ** Late progress completions *)

Lemma requestProgress_inv s rid s' :
  DonateContract.requestProgress s = Ok rid s' ->
  campaignActive (storage s) = true
  /\ rid = counterRequest (fhe s)
  /\ counterRequest (fhe s') = rid + 1
  /\ requestedHandles (fhe s') !! rid
     = Some [_totalDonations (storage s); _targetAmount (storage s)].
Proof.
  revert s'. open_state s. intros s'. symex; intros H; [|discriminate H].
  injection H as <- <-. cbn. repeat split. apply lookup_insert_eq.
Qed.

Lemma callbackProgress_verified rid s tot tgt :
  requestedHandles (fhe s) !! rid = Some [tot; tgt] ->
  is_uint128 (plain tot) = true -> is_uint128 (plain tgt) = true ->
  plain tgt = 0 \/ plain tot * 100 <= uint128_max ->
  DonateContract.callbackProgress rid [plain tot; plain tgt] true s
  = Ok tt (with_events
             (events s ++ [CampaignProgress (plain tot) (plain tgt)
                             (if 0 <? plain tgt
                              then plain tot * 100 / plain tgt else 0)]) s).
Proof.
  open_state s. cbn [fhe requestedHandles]. intros Hreq Htot Htgt Hfit.
  reduce_call. rewrite Hreq. unfold FHE.verifySignatures.
  rewrite bool_decide_eq_true_2 by reflexivity. cbn [andb].
  rewrite Htot, Htgt. cbn [andb].
  destruct (0 <? plain tgt) eqn:Hpos; [|reflexivity].
  destruct (plain tot * 100 <=? uint128_max) eqn:Hle; [reflexivity|].
  facts. exfalso. lia.
Qed.

Lemma callbackProgress_overflow rid s tot tgt :
  requestedHandles (fhe s) !! rid = Some [tot; tgt] ->
  is_uint128 (plain tot) = true -> is_uint128 (plain tgt) = true ->
  0 < plain tgt -> uint128_max < plain tot * 100 ->
  DonateContract.callbackProgress rid [plain tot; plain tgt] true s
  = Revert (Panic 17).
Proof.
  open_state s. cbn [fhe requestedHandles]. intros Hreq Htot Htgt Hpos Hover.
  reduce_call. rewrite Hreq. unfold FHE.verifySignatures.
  rewrite bool_decide_eq_true_2 by reflexivity. cbn [andb].
  rewrite Htot, Htgt. cbn [andb].
  destruct (0 <? plain tgt) eqn:Hp; [|facts; exfalso; lia].
  destruct (plain tot * 100 <=? uint128_max) eqn:Hle; [|reflexivity].
  facts. exfalso. lia.
Qed.

Lemma callbackProgress_outcome rid cleartexts proof a b :
  requestedHandles (fhe a) !! rid = requestedHandles (fhe b) !! rid ->
  outcome (DonateContract.callbackProgress rid cleartexts proof a)
  = outcome (DonateContract.callbackProgress rid cleartexts proof b).
Proof.
  destruct a as [ta [a1 a2 a3 a4 a5 a6 a7] [na ca ka ra] ba ea tra pa].
  destruct b as [tb [b1 b2 b3 b4 b5 b6 b7] [nb cb kb rb] bb eb trb pb].
  cbn [fhe requestedHandles]. intros Hreq.
  reduce_call. rewrite Hreq. symex; reflexivity.
Qed.

(** C9, as stated, fails: a progress request is issued while the campaign
    holds a total of 2^128 - 1 and a target of 1, and the campaign is then
    ended.  The verified completion that arrives afterwards does not
    succeed: it reverts with the arithmetic-overflow panic. *)
Lemma late_progress_overflow_reverts :
  let s0 := run (deployed 100 ∅)
              [StartCampaign 1 (enc 1); Donate 2 1 (enc uint128_max)] in
  let s1 := step s0 RequestProgress in
  let s2 := run s1 [EndCampaign 1] in
  campaignActive (storage s0) = true
  /\ campaignActive (storage s2) = false
  /\ map plain <$> requestedHandles (fhe s2) !! 0 = Some [uint128_max; 1]
  /\ FHE.checkSignatures 0 [uint128_max; 1] true s2 = Ok tt s2
  /\ DonateContract.callbackProgress 0 [uint128_max; 1] true s2 = Revert (Panic 17).
Proof. vm_compute. repeat split. Qed.

(** C9, amended: a progress completion that arrives after the campaign has
    ended is never rejected for the campaign being inactive: after any
    further calls, among them [endCampaign] and its callback, every
    completion for the request ends as it would have ended right after the
    request was issued.  The verified completion carries the total and target
    decrypted from the handles saved at request time, and no other
    cleartexts are accepted; with [target = 0] or [total * 100] within 128
    bits it succeeds and emits [CampaignProgress] with these values, and with
    [target > 0] and [total * 100] beyond 128 bits it reverts with the
    arithmetic-overflow panic, active campaign or not. *)
Theorem late_progress_completion s0 rid s1 txs :
  DonateContract.requestProgress s0 = Ok rid s1 ->
  let total := plain (DonateContract.totalDonations s0) in
  let target := plain (DonateContract.targetAmount s0) in
  is_uint128 total = true -> is_uint128 target = true ->
  let s2 := run s1 txs in
  (forall cleartexts proof,
     outcome (DonateContract.callbackProgress rid cleartexts proof s2)
     = outcome (DonateContract.callbackProgress rid cleartexts proof s1))
  /\ (target = 0 \/ total * 100 <= uint128_max ->
      DonateContract.callbackProgress rid [total; target] true s2
      = Ok tt (with_events
                 (events s2 ++ [CampaignProgress total target
                                  (if 0 <? target then total * 100 / target else 0)]) s2))
  /\ (0 < target -> uint128_max < total * 100 ->
      DonateContract.callbackProgress rid [total; target] true s2 = Revert (Panic 17))
  /\ (forall cleartexts proof s3,
        DonateContract.callbackProgress rid cleartexts proof s2 = Ok tt s3 ->
        cleartexts = [total; target]).
Proof.
  intros Hreq total target Htot Htgt s2.
  destruct (requestProgress_inv _ _ _ Hreq) as (_ & _ & Hcnt & Hsaved).
  assert (Hsame : requestedHandles (fhe s2) !! rid = requestedHandles (fhe s1) !! rid).
  { destruct (run_request_preserved txs s1 rid) as [Hq _]; [lia|]. exact Hq. }
  assert (Hkept : requestedHandles (fhe s2) !! rid
                  = Some [_totalDonations (storage s0); _targetAmount (storage s0)])
    by (by rewrite Hsame).
  split; [|split; [|split]].
  - intros cleartexts proof. by apply callbackProgress_outcome.
  - intros Hfit. by apply callbackProgress_verified.
  - intros Hpos Hover. by apply callbackProgress_overflow.
  - intros cleartexts proof s3 Hok.
    destruct (callbackProgress_inv _ _ _ _ _ Hok) as (hs & ? & ? & Hhs & _ & -> & _).
    rewrite Hkept in Hhs. by injection Hhs as <-.
Qed.

Lemma late_progress_completion_witness :
  let s0 := run (deployed 100 ∅)
              [StartCampaign 1 (enc 1000); Donate 2 300 (enc 300)] in
  let s1 := step s0 RequestProgress in
  let txs := [Donate 3 800 (enc 800); EndCampaign 1; CallbackEndCampaign 1 [1100] true] in
  let s2 := run s1 txs in
  campaignActive (storage s2) = false
  /\ events s2 = events s1 ++ [Donation 3 {| hid := 10; plain := 800 |};
                               WithdrawalRequested 1 {| hid := 12; plain := 1100 |};
                               Withdrawn 1 1100; CampaignEnded 1 1100]
  /\ DonateContract.callbackProgress 0 [300; 1000] true s2
     = Ok tt (with_events (events s2 ++ [CampaignProgress 300 1000 30]) s2).
Proof.
  intros s0 s1 txs s2.
  assert (H1 : DonateContract.requestProgress s0 = Ok 0 s1)
    by (vm_compute; reflexivity).
  assert (H2 : is_uint128 (plain (DonateContract.totalDonations s0)) = true)
    by (vm_compute; reflexivity).
  assert (H3 : is_uint128 (plain (DonateContract.targetAmount s0)) = true)
    by (vm_compute; reflexivity).
  assert (H4 : plain (DonateContract.targetAmount s0) = 0
               \/ plain (DonateContract.totalDonations s0) * 100 <= uint128_max)
    by (right; vm_compute; discriminate).
  split; [vm_compute; reflexivity|]. split; [vm_compute; reflexivity|].
  exact (proj1 (proj2 (late_progress_completion s0 0 s1 txs H1 H2 H3)) H4).
Defined.


(** * Further properties of the contract *)

(** ** Access control of [endCampaign] and [updateTarget] *)

(** [endCampaign] checks the caller before the lifecycle ([onlyOwner] comes
    first): any caller other than the owner gets "Not owner", whether or not
    a campaign is active; the owner gets "Campaign not active" when none is;
    and the owner of an active campaign always succeeds.  A rejected call
    changes nothing. *)
Theorem endCampaign_access sender s :
  (sender <> charityOwner (storage s) ->
   DonateContract.endCampaign sender s = Revert (Error "Not owner")
   /\ step s (EndCampaign sender) = s)
  /\ (sender = charityOwner (storage s) -> campaignActive (storage s) = false ->
      DonateContract.endCampaign sender s = Revert (Error "Campaign not active")
      /\ step s (EndCampaign sender) = s)
  /\ (sender = charityOwner (storage s) -> campaignActive (storage s) = true ->
      exists s', DonateContract.endCampaign sender s = Ok tt s').
Proof.
  open_state s. cbn [storage charityOwner campaignActive]. repeat split.
  - symex; facts; try reflexivity; congruence.
  - symex; facts; try reflexivity; congruence.
  - subst. symex; facts; try reflexivity; congruence.
  - subst. symex; facts; try reflexivity; congruence.
  - intros -> ->. eexists. symex; facts; try reflexivity; congruence.
Qed.

Lemma endCampaign_access_witness :
  let s := run (deployed 100 ∅) [StartCampaign 1 (enc 1000)] in
  DonateContract.endCampaign 2 s = Revert (Error "Not owner")
  /\ DonateContract.endCampaign 0 (deployed 100 ∅) = Revert (Error "Campaign not active")
  /\ exists s', DonateContract.endCampaign 1 s = Ok tt s'.
Proof.
  intros s.
  assert (H1 : 2 <> charityOwner (storage s)) by (vm_compute; discriminate).
  assert (H2 : 0 = charityOwner (storage (deployed 100 ∅))) by reflexivity.
  assert (H3 : campaignActive (storage (deployed 100 ∅)) = false) by reflexivity.
  assert (H4 : 1 = charityOwner (storage s)) by reflexivity.
  assert (H5 : campaignActive (storage s) = true) by reflexivity.
  split; [exact (proj1 (proj1 (endCampaign_access 2 s) H1))|].
  split; [exact (proj1 (proj1 (proj2 (endCampaign_access 0 (deployed 100 ∅))) H2 H3))|].
  exact (proj2 (proj2 (endCampaign_access 1 s)) H4 H5).
Defined.

(** [updateTarget] applies the same two checks in the same order, and then
    verifies the input proof: a non-owner gets "Not owner", the owner of an
    inactive campaign "Campaign not active", the owner of an active campaign
    with a bad proof the library's rejection.  A rejected call changes
    nothing, and the owner of an active campaign with a valid proof always
    succeeds. *)
Theorem updateTarget_access sender x s :
  (sender <> charityOwner (storage s) ->
   DonateContract.updateTarget sender x s = Revert (Error "Not owner"))
  /\ (sender = charityOwner (storage s) -> campaignActive (storage s) = false ->
      DonateContract.updateTarget sender x s = Revert (Error "Campaign not active"))
  /\ (sender = charityOwner (storage s) -> campaignActive (storage s) = true ->
      ext_proof_ok x = false ->
      DonateContract.updateTarget sender x s = Revert InputProofRejected)
  /\ (sender = charityOwner (storage s) -> campaignActive (storage s) = true ->
      ext_proof_ok x = true ->
      exists s', DonateContract.updateTarget sender x s = Ok tt s')
  /\ (sender <> charityOwner (storage s) \/ campaignActive (storage s) = false
      \/ ext_proof_ok x = false ->
      step s (UpdateTarget sender x) = s).
Proof.
  open_state s. cbn [storage charityOwner campaignActive]. repeat split.
  - symex; facts; try reflexivity; congruence.
  - subst. symex; facts; try reflexivity; congruence.
  - intros -> -> Hx. symex; facts; try reflexivity; congruence.
  - intros -> -> Hx. eexists. symex; facts; try reflexivity; congruence.
  - intros Hcase. symex; facts; try reflexivity; exfalso.
    destruct Hcase as [Hc | [Hc | Hc]]; congruence.
Qed.

Lemma updateTarget_access_witness :
  let s := run (deployed 100 ∅) [StartCampaign 1 (enc 1000)] in
  DonateContract.updateTarget 2 (enc 5) s = Revert (Error "Not owner")
  /\ DonateContract.updateTarget 1 {| ext_plain := 5; ext_proof_ok := false |} s
     = Revert InputProofRejected
  /\ step s (UpdateTarget 2 (enc 5)) = s.
Proof.
  intros s.
  assert (H1 : 2 <> charityOwner (storage s)) by (vm_compute; discriminate).
  assert (H4 : 1 = charityOwner (storage s)) by reflexivity.
  assert (H5 : campaignActive (storage s) = true) by reflexivity.
  split; [exact (proj1 (updateTarget_access 2 (enc 5) s) H1)|].
  split; [exact (proj1 (proj2 (proj2 (updateTarget_access 1
                   {| ext_plain := 5; ext_proof_ok := false |} s))) H4 H5 eq_refl)|].
  exact (proj2 (proj2 (proj2 (proj2 (updateTarget_access 2 (enc 5) s))))
           (or_introl H1)).
Defined.

(** ** An accepted donation *)

(** In an active campaign a donation with a positive paid value of at most
    2^128 - 1 and a valid input proof is always accepted.  The contract's
    balance grows by the paid value, while the encrypted total and the
    donor's encrypted balance grow, modulo 2^128, by the encrypted amount:
    the contract never compares the two.  Every other donor's balance is the
    same handle as before.  The new total is granted to the contract and the
    owner, the donor's new balance to the contract and the donor, the donor's
    address is recorded encrypted, and one [Donation] event carries the
    handle of the submitted amount. *)
Theorem donate_effects sender value x s :
  wf s ->
  campaignActive (storage s) = true ->
  0 < value -> value <= uint128_max -> ext_proof_ok x = true ->
  exists s',
    DonateContract.donate sender value x s = Ok tt s'
    /\ balance s' = balance s + value
    /\ plain (DonateContract.totalDonations s')
       = add_wrapped (plain (DonateContract.totalDonations s)) (ext_plain x)
    /\ plain (DonateContract.balanceOf s' sender)
       = add_wrapped (plain (DonateContract.balanceOf s sender)) (ext_plain x)
    /\ (forall d, d <> sender ->
          DonateContract.balanceOf s' d = DonateContract.balanceOf s d)
    /\ (hid (DonateContract.totalDonations s'), this s) ∈ acl (fhe s')
    /\ (hid (DonateContract.totalDonations s'), charityOwner (storage s)) ∈ acl (fhe s')
    /\ (hid (DonateContract.balanceOf s' sender), this s) ∈ acl (fhe s')
    /\ (hid (DonateContract.balanceOf s' sender), sender) ∈ acl (fhe s')
    /\ plain <$> _encryptedDonorAddresses (storage s') !! sender = Some sender
    /\ events s' = events s ++ [Donation sender {| hid := nextHandle (fhe s);
                                                   plain := ext_plain x |}]
    /\ campaignActive (storage s') = true
    /\ charityOwner (storage s') = charityOwner (storage s)
    /\ _targetAmount (storage s') = _targetAmount (storage s)
    /\ _pendingWithdrawals (storage s') = _pendingWithdrawals (storage s)
    /\ transfers s' = transfers s.
Proof.
  unfold wf. open_state s.
  cbn [fhe storage nextHandle _totalDonations _targetAmount _donorBalances
       campaignActive charityOwner this balance events transfers].
  intros (Hn & Ht & Hg & Hd) -> Hpos Hmax Hx.
  symex; facts; try (exfalso; lia); try congruence.
  all: eexists; split; [reflexivity|]; cbn.
  all: rewrite ?handle_at_insert_eq, ?lookup_insert_eq; cbn.
  all: repeat split; try reflexivity;
    try (intros d Hne; by rewrite handle_at_insert_ne);
    try (rewrite ?elem_of_union, ?elem_of_singleton; tauto).
  all: unfold handle_at in *;
    destruct (_donorBalances0 !! sender) as [h|] eqn:Hh; cbn in *;
    [ exfalso; by eapply Hd | reflexivity ].
Qed.

Lemma donate_effects_witness :
  let s := run (deployed 100 ∅) [StartCampaign 1 (enc 1000); Donate 2 300 (enc 300)] in
  exists s',
    DonateContract.donate 2 50 (enc 800) s = Ok tt s'
    /\ balance s' = 350
    /\ plain (DonateContract.totalDonations s') = 1100
    /\ plain (DonateContract.balanceOf s' 2) = 1100.
Proof.
  intros s.
  assert (H0 : wf s) by (apply run_wf, deployed_wf).
  assert (H1 : campaignActive (storage s) = true) by reflexivity.
  assert (H2 : 0 < 50) by reflexivity.
  assert (H3 : 50 <= uint128_max) by (vm_compute; discriminate).
  assert (H4 : ext_proof_ok (enc 800) = true) by reflexivity.
  destruct (donate_effects 2 50 (enc 800) s H0 H1 H2 H3 H4)
    as (s' & Ha & Hb & Hc & Hd & _).
  exists s'. split; [exact Ha|].
  split; [rewrite Hb; vm_compute; reflexivity|].
  split; [rewrite Hc; vm_compute; reflexivity|].
  rewrite Hd. vm_compute. reflexivity.
Defined.

(** ** Pending withdrawals and request ids *)

Lemma deployed_requests_wf self rejecting : requests_wf (deployed self rejecting).
Proof.
  split.
  - intros rid _. vm_compute. reflexivity.
  - intros rid a H. vm_compute in H. discriminate.
Qed.

Lemma step_requests_wf s tx : requests_wf s -> requests_wf (step s tx).
Proof.
  unfold requests_wf. open_state s.
  cbn [fhe storage counterRequest requestedHandles _pendingWithdrawals].
  intros [Hfree Hpend].
  assert (Hlt : forall rid a, _pendingWithdrawals0 !! rid = Some a -> rid < counterRequest0).
  { intros rid a Ha. destruct (Hpend rid a Ha) as [h Hh].
    destruct (Z.lt_ge_cases rid counterRequest0) as [|Hge]; [done|].
    rewrite (Hfree rid Hge) in Hh. discriminate. }
  destruct tx; symex; (split; [| intros rid a Ha]); try (by apply Hfree);
    try (by eapply Hpend).
  - intros rid Hr. rewrite lookup_insert_ne by lia. apply Hfree. lia.
  - destruct (decide (counterRequest0 = rid)) as [<-|Hne].
    + rewrite lookup_insert_eq. eauto.
    + rewrite lookup_insert_ne in Ha by done. rewrite lookup_insert_ne by done.
      by eapply Hpend.
  - intros rid Hr. rewrite lookup_insert_ne by lia. apply Hfree. lia.
  - rewrite lookup_insert_ne by (apply Hlt in Ha; lia). by eapply Hpend.
  - apply lookup_delete_Some in Ha as [_ Ha]. by eapply Hpend.
Qed.

Lemma reachable_requests_wf s : reachable s -> requests_wf s.
Proof.
  intros (self & rej & txs & ->). revert txs.
  apply (rev_ind (fun txs => requests_wf (run (deployed self rej) txs))).
  - apply deployed_requests_wf.
  - intros tx txs IH. unfold run. rewrite fold_left_app. cbn [fold_left].
    apply step_requests_wf, IH.
Qed.

Lemma step_spent rid s tx : spent rid s -> from_account tx -> spent rid (step s tx).
Proof.
  unfold spent. open_state s.
  cbn [fhe storage counterRequest _pendingWithdrawals charityOwner].
  intros (Hlt & Hnone & Howner) Hacc.
  destruct tx; symex; repeat split; try assumption; try lia.
  - by rewrite lookup_insert_ne by lia.
  - apply lookup_delete_None. by right.
Qed.

Lemma run_spent rid txs : forall s,
  spent rid s -> Forall from_account txs -> spent rid (run s txs).
Proof.
  induction txs as [|tx txs IH]; intros s Hs Hall; [exact Hs|].
  inversion Hall; subst. apply (IH (step s tx)); [by apply step_spent | done].
Qed.

Lemma spent_never_pays rid cleartexts proof s s' :
  spent rid s ->
  DonateContract.callbackEndCampaign rid cleartexts proof s <> Ok tt s'.
Proof.
  intros (_ & Hnone & Howner). by apply callbackEndCampaign_needs_pending.
Qed.

(** A withdrawal is paid at most once: after a successful end-campaign
    callback for a request, no later end-campaign callback with the same
    request id succeeds, whatever cleartexts and proof it carries and
    whatever calls were made in between (the callers being real accounts, so
    that the owner is never the zero address). *)
Theorem no_double_withdrawal s rid cleartexts proof s1 txs cleartexts' proof' s2 :
  reachable s ->
  charityOwner (storage s) <> 0 ->
  DonateContract.callbackEndCampaign rid cleartexts proof s = Ok tt s1 ->
  Forall from_account txs ->
  DonateContract.callbackEndCampaign rid cleartexts' proof' (run s1 txs) <> Ok tt s2.
Proof.
  intros Hreach Howner Hok Hall.
  apply spent_never_pays, run_spent; [|exact Hall].
  destruct (callbackEndCampaign_inv _ _ _ _ _ Hok)
    as (hs & ? & ? & Hhs & _ & _ & _ & _ & _ & _ & _ & ->).
  repeat split; cbn.
  - destruct (Z.lt_ge_cases rid (counterRequest (fhe s))) as [|Hge]; [done|].
    rewrite (proj1 (reachable_requests_wf s Hreach) rid Hge) in Hhs. discriminate.
  - apply lookup_delete_eq.
  - exact Howner.
Qed.

Lemma no_double_withdrawal_witness :
  let s := run (deployed 100 ∅)
             [StartCampaign 1 (enc 1000); Donate 2 300 (enc 300); EndCampaign 1] in
  let s1 := step s (CallbackEndCampaign 0 [300] true) in
  let txs := [StartCampaign 1 (enc 50); Donate 3 300 (enc 300)] in
  transfers s1 = [(1, 300)]
  /\ balance (run s1 txs) = 300
  /\ DonateContract.callbackEndCampaign 0 [300] true (run s1 txs)
     <> Ok tt (run s1 txs).
Proof.
  intros s s1 txs.
  assert (H0 : reachable s) by (eexists 100, ∅, _; reflexivity).
  assert (H1 : charityOwner (storage s) <> 0) by (vm_compute; discriminate).
  assert (H2 : DonateContract.callbackEndCampaign 0 [300] true s = Ok tt s1)
    by (vm_compute; reflexivity).
  assert (H3 : Forall from_account txs)
    by (repeat constructor; vm_compute; discriminate).
  split; [vm_compute; reflexivity|]. split; [vm_compute; reflexivity|].
  exact (no_double_withdrawal s 0 [300] true s1 txs [300] true (run s1 txs)
           H0 H1 H2 H3).
Defined.

(** The two kinds of request cannot be confused.  The completion of an
    [endCampaign] request is never accepted by [callbackProgress], and the
    completion of a [requestProgress] request is never accepted by
    [callbackEndCampaign], so a progress request never moves funds; both
    hold however many calls later the completion arrives. *)
Theorem completion_kinds_not_confused s txs cleartexts proof s' :
  (forall sender sE,
     DonateContract.endCampaign sender s = Ok tt sE ->
     DonateContract.callbackProgress (counterRequest (fhe s)) cleartexts proof (run sE txs)
     <> Ok tt s')
  /\ (forall rid sP,
        reachable s -> charityOwner (storage s) <> 0 ->
        DonateContract.requestProgress s = Ok rid sP ->
        Forall from_account txs ->
        DonateContract.callbackEndCampaign rid cleartexts proof (run sP txs) <> Ok tt s').
Proof.
  split.
  - intros sender sE Hend Hok.
    destruct (endCampaign_inv _ _ _ Hend) as (_ & _ & HsE).
    set (rid := counterRequest (fhe s)) in *.
    assert (Hlt : rid < counterRequest (fhe sE)) by (rewrite HsE; cbn; fold rid; lia).
    destruct (run_request_preserved txs sE rid Hlt) as [Hq _].
    destruct (callbackProgress_inv _ _ _ _ _ Hok)
      as (hs & ? & ? & Hhs & _ & -> & [rest Hshape] & _).
    rewrite Hq, HsE in Hhs. cbn in Hhs. fold rid in Hhs.
    rewrite lookup_insert_eq in Hhs. injection Hhs as <-. discriminate Hshape.
  - intros rid sP Hreach Howner Hreq Hall.
    apply spent_never_pays, run_spent; [|exact Hall].
    destruct (requestProgress_inv _ _ _ Hreq) as (_ & -> & Hcnt & _).
    assert (HsP : storage sP = storage s).
    { revert Hreq. clear. revert sP. open_state s. intros sP.
      symex; finish_call; reflexivity. }
    repeat split.
    + lia.
    + rewrite HsP.
      destruct (_pendingWithdrawals (storage s) !! counterRequest (fhe s)) eqn:Hp; [|done].
      destruct (reachable_requests_wf s Hreach) as [Hfree Hpend].
      destruct (Hpend _ _ Hp) as [h Hh]. rewrite Hfree in Hh by lia. discriminate.
    + by rewrite HsP.
Qed.

Lemma completion_kinds_not_confused_witness :
  let s := run (deployed 100 ∅) [StartCampaign 1 (enc 1000); Donate 2 300 (enc 300)] in
  let sP := step s RequestProgress in
  let txs := [EndCampaign 1] in
  DonateContract.callbackEndCampaign 0 [300; 1000] true (run sP txs)
  <> Ok tt (run sP txs).
Proof.
  intros s sP txs.
  assert (H0 : reachable s) by (eexists 100, ∅, _; reflexivity).
  assert (H1 : charityOwner (storage s) <> 0) by (vm_compute; discriminate).
  assert (H2 : DonateContract.requestProgress s = Ok 0 sP) by (vm_compute; reflexivity).
  assert (H3 : Forall from_account txs)
    by (repeat constructor; vm_compute; discriminate).
  exact (proj2 (completion_kinds_not_confused s txs [300; 1000] true (run sP txs))
           0 sP H0 H1 H2 H3).
Defined.

(** ** Native funds *)

Lemma sum_snoc l x : sum (l ++ [x]) = sum l + x.
Proof.
  unfold sum. induction l as [|a l IH]; cbn; [lia|].
  rewrite IH. lia.
Qed.

Lemma step_funds s tx :
  balance (step s tx) + sent (step s tx)
  = balance s + sent s
    + match tx, call tx s with
      | Donate _ value _, Ok _ _ => value
      | _, _ => 0
      end
  /\ (0 <= balance s -> 0 <= balance (step s tx)).
Proof.
  unfold sent. open_state s. cbn [balance transfers].
  destruct tx; symex; rewrite ?map_app; cbn [map snd]; rewrite ?sum_snoc;
    facts; split; lia.
Qed.

(** Conservation of funds: at any time since deployment, the balance held
    by the contract is exactly what the successful donations paid in minus
    what the contract has sent out, and it is never negative. *)
Theorem funds_conserved self rejecting txs :
  let s := run (deployed self rejecting) txs in
  balance s = paid_in (deployed self rejecting) txs - sent s
  /\ 0 <= balance s.
Proof.
  cbn zeta.
  assert (Hgen : forall txs s,
            balance (run s txs) + sent (run s txs) = balance s + sent s + paid_in s txs
            /\ (0 <= balance s -> 0 <= balance (run s txs))).
  { clear. induction txs as [|tx txs IH]; intros s.
    - cbn. split; [lia | done].
    - change (run s (tx :: txs)) with (run (step s tx) txs).
      destruct (IH (step s tx)) as [IH1 IH2].
      destruct (step_funds s tx) as [H1 H2].
      split; [| by intros; apply IH2, H2].
      rewrite IH1, H1. cbn [paid_in].
      destruct tx; try lia. destruct (call _ s); lia. }
  destruct (Hgen txs (deployed self rejecting)) as [H1 H2].
  change (balance (deployed self rejecting)) with 0 in *.
  change (sent (deployed self rejecting)) with 0 in *.
  split; [lia | apply H2; lia].
Qed.

(** Funds leave the contract in one way only.  A call that sends anything
    is a successful end-campaign callback: it makes a single transfer, to the
    owner of that moment, who is also the account recorded for the request
    when [endCampaign] was called, of an amount between 0 and the balance
    held, and it consumes the pending withdrawal.  Every other call, and
    every reverted one, sends nothing. *)
Theorem payouts_only_by_callback s tx :
  transfers (step s tx) = transfers s
  \/ exists rid cleartexts proof d,
       tx = CallbackEndCampaign rid cleartexts proof
       /\ transfers (step s tx) = transfers s ++ [(charityOwner (storage s), d)]
       /\ address_at (_pendingWithdrawals (storage s)) rid = charityOwner (storage s)
       /\ 0 <= d <= balance s
       /\ balance (step s tx) = balance s - d
       /\ _pendingWithdrawals (storage (step s tx)) !! rid = None.
Proof.
  unfold step, commit.
  destruct (call tx s) as [[] s'|f] eqn:Hcall; [|by left].
  destruct tx; try (left; revert s' Hcall; open_state s; intros s';
                    symex; finish_call; reflexivity).
  right. cbn [call] in Hcall.
  destruct (callbackEndCampaign_inv _ _ _ _ _ Hcall)
    as (hs & d & rest & _ & _ & _ & _ & Hu & Hw & Hle & _ & ->).
  exists requestId, cleartexts, proof, d. cbn.
  unfold is_uint128 in Hu. facts.
  repeat split; try done. apply lookup_delete_eq.
Qed.

(** ** An inactive campaign *)

Lemma step_inactive s tx :
  campaignActive (storage s) = false -> is_start tx = false ->
  campaignActive (storage (step s tx)) = false
  /\ charityOwner (storage (step s tx)) = charityOwner (storage s)
  /\ _totalDonations (storage (step s tx)) = _totalDonations (storage s)
  /\ _targetAmount (storage (step s tx)) = _targetAmount (storage s)
  /\ _donorBalances (storage (step s tx)) = _donorBalances (storage s)
  /\ fhe (step s tx) = fhe s
  /\ balance (step s tx) <= balance s.
Proof.
  open_state s. cbn [storage campaignActive]. intros -> Hstart.
  destruct tx; try discriminate Hstart; symex; unfold is_uint128 in *; facts;
    repeat split; try reflexivity; lia.
Qed.

(** While no campaign is active the ledger is frozen: whatever calls are
    made short of a [startCampaign], the flag stays false, the owner, the
    encrypted total, the target and every donor's balance keep their handles,
    no handle is created, no access is granted and no decryption request is
    issued.  All that can still happen is the payment of withdrawals
    requested earlier, so the balance does not grow. *)
Theorem inactive_campaign_frozen s txs :
  campaignActive (storage s) = false ->
  Forall (fun tx => is_start tx = false) txs ->
  campaignActive (storage (run s txs)) = false
  /\ charityOwner (storage (run s txs)) = charityOwner (storage s)
  /\ DonateContract.totalDonations (run s txs) = DonateContract.totalDonations s
  /\ DonateContract.targetAmount (run s txs) = DonateContract.targetAmount s
  /\ (forall donor,
        DonateContract.balanceOf (run s txs) donor = DonateContract.balanceOf s donor)
  /\ fhe (run s txs) = fhe s
  /\ balance (run s txs) <= balance s.
Proof.
  intros Hoff Hall. revert s Hoff.
  induction Hall as [|tx txs Htx _ IH]; intros s Hoff.
  - change (run s []) with s. repeat split; try assumption; lia.
  - change (run s (tx :: txs)) with (run (step s tx) txs).
    destruct (step_inactive s tx Hoff Htx) as (H1 & H2 & H3 & H4 & H5 & H6 & H7).
    destruct (IH _ H1) as (I1 & I2 & I3 & I4 & I5 & I6 & I7).
    unfold DonateContract.totalDonations, DonateContract.targetAmount,
      DonateContract.balanceOf in *.
    repeat split; try congruence; try lia.
Qed.

Lemma inactive_campaign_frozen_witness :
  let s := run (deployed 100 ∅)
             [StartCampaign 1 (enc 1000); Donate 2 300 (enc 300); EndCampaign 1] in
  let txs := [Donate 3 50 (enc 50); UpdateTarget 1 (enc 7); RequestProgress;
              CallbackEndCampaign 0 [300] true; EndCampaign 1] in
  campaignActive (storage (run s txs)) = false
  /\ DonateContract.totalDonations (run s txs) = DonateContract.totalDonations s
  /\ fhe (run s txs) = fhe s
  /\ balance (run s txs) = 0.
Proof.
  intros s txs.
  assert (H1 : campaignActive (storage s) = false) by reflexivity.
  assert (H2 : Forall (fun tx => is_start tx = false) txs) by (repeat constructor).
  destruct (inactive_campaign_frozen s txs H1 H2) as (Ha & _ & Hb & _ & _ & Hc & _).
  split; [exact Ha|]. split; [exact Hb|]. split; [exact Hc|].
  vm_compute. reflexivity.
Defined.

(** Before the first campaign nothing but [startCampaign] gets through:
    on the freshly deployed contract every other call reverts, the callbacks
    because no decryption was ever requested. *)
Theorem deployed_only_start self rejecting tx :
  is_start tx = false ->
  exists f, call tx (deployed self rejecting) = Revert f
            /\ match tx with
               | CallbackEndCampaign _ _ _ | CallbackProgress _ _ _ =>
                   f = NoHandleFoundForRequestID
               | EndCampaign sender | UpdateTarget sender _ =>
                   f = Error (if sender =? 0 then "Campaign not active" else "Not owner")
               | _ => f = Error "Campaign not active"
               end.
Proof.
  intros Hstart. destruct tx; try discriminate Hstart; cbn [call].
  - exists (Error (if sender =? 0 then "Campaign not active" else "Not owner")).
    split; [|reflexivity].
    unfold deployed, blank, DonateContract.constructor. symex; reflexivity.
  - exists (Error (if sender =? 0 then "Campaign not active" else "Not owner")).
    split; [|reflexivity].
    unfold deployed, blank, DonateContract.constructor. symex; reflexivity.
  - eexists. split; reflexivity.
  - eexists. split; reflexivity.
  - eexists. split; [|reflexivity].
    apply (unknown_request_rejected requestId cleartexts proof (deployed self rejecting)).
    vm_compute. reflexivity.
  - eexists. split; [|reflexivity].
    apply (unknown_request_rejected requestId cleartexts proof (deployed self rejecting)).
    vm_compute. reflexivity.
Qed.

Lemma deployed_only_start_witness :
  call (Donate 2 5 (enc 5)) (deployed 100 ∅) = Revert (Error "Campaign not active")
  /\ call (EndCampaign 7) (deployed 100 ∅) = Revert (Error "Not owner").
Proof.
  split.
  - destruct (deployed_only_start 100 ∅ (Donate 2 5 (enc 5)) eq_refl) as (f & -> & ->).
    reflexivity.
  - destruct (deployed_only_start 100 ∅ (EndCampaign 7) eq_refl) as (f & -> & ->).
    reflexivity.
Defined.

(** ** Completions that do not verify *)

(** A completion is accepted only with the true decryption: for a request
    with saved handles, a proof that is not genuine, or cleartexts other than
    the plaintexts of those handles, make both callbacks revert with the
    library's signature error, and nothing changes: no payout, no event. *)
Theorem forged_completion_rejected rid cleartexts proof s h hs :
  requestedHandles (fhe s) !! rid = Some (h :: hs) ->
  proof = false \/ cleartexts <> map plain (h :: hs) ->
  DonateContract.callbackEndCampaign rid cleartexts proof s = Revert InvalidKMSSignatures
  /\ DonateContract.callbackProgress rid cleartexts proof s = Revert InvalidKMSSignatures
  /\ step s (CallbackEndCampaign rid cleartexts proof) = s
  /\ step s (CallbackProgress rid cleartexts proof) = s.
Proof.
  intros Hreq Hbad.
  assert (Hv : FHE.verifySignatures (h :: hs) cleartexts proof = false).
  { unfold FHE.verifySignatures. destruct Hbad as [-> | Hne]; [reflexivity|].
    rewrite bool_decide_eq_false_2 by done. apply andb_false_r. }
  assert (He : DonateContract.callbackEndCampaign rid cleartexts proof s
               = Revert InvalidKMSSignatures).
  { revert Hreq Hv. open_state s. cbn [fhe requestedHandles]. intros Hreq Hv.
    reduce_call. rewrite Hreq. reduce_call. rewrite Hv. reflexivity. }
  assert (Hp : DonateContract.callbackProgress rid cleartexts proof s
               = Revert InvalidKMSSignatures).
  { revert Hreq Hv. open_state s. cbn [fhe requestedHandles]. intros Hreq Hv.
    reduce_call. rewrite Hreq. reduce_call. rewrite Hv. reflexivity. }
  repeat split; try assumption; unfold step, commit, call.
  - by rewrite He.
  - by rewrite Hp.
Qed.

Lemma forged_completion_rejected_witness :
  let s := run (deployed 100 ∅)
             [StartCampaign 1 (enc 1000); Donate 2 300 (enc 300); EndCampaign 1] in
  DonateContract.callbackEndCampaign 0 [1] true s = Revert InvalidKMSSignatures
  /\ DonateContract.callbackEndCampaign 0 [300] false s = Revert InvalidKMSSignatures.
Proof.
  intros s.
  assert (H : requestedHandles (fhe s) !! 0 = Some [ {| hid := 7; plain := 300 |} ])
    by (vm_compute; reflexivity).
  assert (H1 : true = false \/ [1] <> map plain [ {| hid := 7; plain := 300 |} ])
    by (right; discriminate).
  assert (H2 : false = false \/ [300] <> map plain [ {| hid := 7; plain := 300 |} ])
    by (left; reflexivity).
  split.
  - exact (proj1 (forged_completion_rejected 0 [1] true s _ _ H H1)).
  - exact (proj1 (forged_completion_rejected 0 [300] false s _ _ H H2)).
Defined.

(** ** Who can change what *)

(** The privileged state changes only through the calls meant for it.  A
    successful call that changes the owner is a [startCampaign] by the new
    owner; one that replaces the target is a [startCampaign] or an
    [updateTarget] by the owner; one that ends an active campaign is an
    [endCampaign] by the owner; one that replaces the encrypted total is a
    [startCampaign] or a [donate]; and a donor's balance is replaced only by
    a [donate] of that donor. *)
Theorem privileged_changes s tx s' :
  call tx s = Ok tt s' ->
  (charityOwner (storage s') <> charityOwner (storage s) ->
   exists x, tx = StartCampaign (charityOwner (storage s')) x)
  /\ (_targetAmount (storage s') <> _targetAmount (storage s) ->
      (exists sender x, tx = StartCampaign sender x)
      \/ exists x, tx = UpdateTarget (charityOwner (storage s)) x)
  /\ (campaignActive (storage s) = true -> campaignActive (storage s') = false ->
      tx = EndCampaign (charityOwner (storage s)))
  /\ (_totalDonations (storage s') <> _totalDonations (storage s) ->
      (exists sender x, tx = StartCampaign sender x)
      \/ exists sender value x, tx = Donate sender value x)
  /\ (forall donor,
        DonateContract.balanceOf s' donor <> DonateContract.balanceOf s donor ->
        exists value x, tx = Donate donor value x).
Proof.
  revert s'. open_state s. intros s'.
  destruct tx; symex; finish_call; facts; subst; repeat split;
    try (intros; congruence); try (intros; contradiction); eauto.
  all: intros donor Hne; destruct (decide (sender = donor)) as [->|Hd]; eauto;
    exfalso; apply Hne; reduce_call; by rewrite handle_at_insert_ne.
Qed.

Lemma privileged_changes_witness :
  let s := run (deployed 100 ∅) [StartCampaign 1 (enc 1000)] in
  let tx := UpdateTarget 1 (enc 2000) in
  _targetAmount (storage (step s tx)) <> _targetAmount (storage s)
  /\ ((exists sender x, tx = StartCampaign sender x)
      \/ exists x, tx = UpdateTarget (charityOwner (storage s)) x).
Proof.
  intros s tx.
  assert (H : call tx s = Ok tt (step s tx)) by (vm_compute; reflexivity).
  assert (H1 : _targetAmount (storage (step s tx)) <> _targetAmount (storage s))
    by (vm_compute; discriminate).
  split; [exact H1|].
  exact (proj1 (proj2 (privileged_changes s tx (step s tx) H)) H1).
Defined.

(** ** The reported percentage *)

(** What a successful progress callback reports: one [CampaignProgress]
    event with two non-negative 128-bit values and a non-negative
    percentage.  With a positive target the percentage is at least 100
    exactly when the total has reached the target, and is 0 exactly when the
    total is below a hundredth of the target; with a zero target it is 0. *)
Theorem reported_percentage rid cleartexts proof s s' :
  DonateContract.callbackProgress rid cleartexts proof s = Ok tt s' ->
  exists total target percentage,
    events s' = events s ++ [CampaignProgress total target percentage]
    /\ 0 <= total <= uint128_max
    /\ 0 <= target <= uint128_max
    /\ 0 <= percentage <= uint128_max
    /\ (0 < target -> (100 <= percentage <-> target <= total)
                      /\ (percentage = 0 <-> total * 100 < target))
    /\ (target = 0 -> percentage = 0).
Proof.
  revert s'. open_state s. intros s'. symex; finish_call.
  all: unfold is_uint128 in *; facts.
  all: eexists _, _, _; split; [reflexivity|].
  all: repeat split; try lia.
  all: try match goal with
         | |- 0 <= _ / _ => apply Z.div_pos; lia
         | |- _ / _ <= _ =>
             etransitivity; [apply Z.div_le_upper_bound; [lia|]|]; [|eassumption]; nia
         | |- 100 <= _ / _ -> _ =>
             intros Hp; apply (Z.mul_le_mono_pos_r _ _ 100); [lia|];
             pose proof (Z.mul_div_le (z * 100) z0); nia
         | |- _ <= _ -> 100 <= _ / _ =>
             intros Hp; apply Z.div_le_lower_bound; lia
         | |- _ / _ = 0 -> _ =>
             intros Hp; pose proof (Z.mul_succ_div_gt (z * 100) z0); rewrite Hp in *; lia
         | |- _ < _ -> _ / _ = 0 =>
             intros Hp; apply Z.div_small; lia
         end.
Qed.

Lemma reported_percentage_witness :
  let s := run (deployed 100 ∅)
             [StartCampaign 1 (enc 200); Donate 2 250 (enc 250); RequestProgress] in
  exists total target percentage,
    events (step s (CallbackProgress 0 [250; 200] true))
    = events s ++ [CampaignProgress total target percentage]
    /\ (0 < target -> (100 <= percentage <-> target <= total)).
Proof.
  intros s.
  assert (H : DonateContract.callbackProgress 0 [250; 200] true s
              = Ok tt (step s (CallbackProgress 0 [250; 200] true)))
    by (vm_compute; reflexivity).
  destruct (reported_percentage 0 [250; 200] true s _ H)
    as (total & target & pct & He & _ & _ & _ & Hp & _).
  exists total, target, pct. split; [exact He|]. intros Hpos. exact (proj1 (Hp Hpos)).
Defined.

(** ** Who is granted access *)

Ltac grant_cases :=
  repeat match goal with
  | H : _ ∈ _ ∪ _ |- _ => apply elem_of_union in H as [H|H]
  | H : _ ∈ {[ _ ]} |- _ => apply elem_of_singleton in H; inversion H; clear H
  end.

Lemma call_grants s tx s' h a :
  call tx s = Ok tt s' ->
  (h, a) ∈ acl (fhe s') ->
  (h, a) ∈ acl (fhe s)
  \/ ((a = this s \/ a = charityOwner (storage s'))
      /\ (h = hid (DonateContract.totalDonations s')
          \/ h = hid (DonateContract.targetAmount s')))
  \/ exists sender value x,
       tx = Donate sender value x
       /\ (a = this s \/ a = sender)
       /\ h = hid (DonateContract.balanceOf s' sender).
Proof.
  revert s'. open_state s. intros s'.
  destruct tx; symex; finish_call; intros Hin; try (by left).
  all: reduce_call; rewrite ?handle_at_insert_eq; cbn [hid] in *.
  all: grant_cases; subst; try (by left).
  all: try (right; left; split; [by left | by left]).
  all: try (right; left; split; [by left | by right]).
  all: try (right; left; split; [by right | by left]).
  all: try (right; left; split; [by right | by right]).
  all: right; right; eexists _, _, _; split; [reflexivity|];
    rewrite handle_at_insert_eq; split; [tauto | reflexivity].
Qed.

Lemma step_this s tx : this (step s tx) = this s.
Proof. open_state s. destruct tx; symex; reflexivity. Qed.

Lemma step_grantee s tx h a :
  (h, a) ∈ acl (fhe (step s tx)) ->
  (h, a) ∈ acl (fhe s) \/ a = this s
  \/ (acted a tx /\ exists s', call tx s = Ok tt s')
  \/ (campaignActive (storage s) = true /\ a = charityOwner (storage s)).
Proof.
  open_state s. destruct tx; symex; cbn [acted]; intros Hin; try (by left).
  all: grant_cases; subst; try (by left); try (right; by left);
    try (right; right; left; split; [reflexivity | eexists; reflexivity]);
    try (right; right; right; by split).
  all: facts; subst; right; right; right; by split.
Qed.

Lemma step_active_owner s tx :
  campaignActive (storage (step s tx)) = true ->
  (campaignActive (storage s) = true
   /\ charityOwner (storage (step s tx)) = charityOwner (storage s))
  \/ (acted (charityOwner (storage (step s tx))) tx
      /\ exists s', call tx s = Ok tt s').
Proof.
  open_state s. destruct tx; symex; cbn [acted]; intros H; try discriminate H;
    try (by left); try (right; split; [reflexivity | eexists; reflexivity]).
Qed.

Lemma took_part_snoc s0 a txs tx : took_part s0 a txs -> took_part s0 a (txs ++ [tx]).
Proof.
  intros (pre & t & post & -> & Ha & Hok).
  exists pre, t, (post ++ [tx]). by rewrite <- app_assoc.
Qed.

Lemma took_part_last s0 a txs tx s' :
  acted a tx -> call tx (run s0 txs) = Ok tt s' -> took_part s0 a (txs ++ [tx]).
Proof. intros Ha Hok. exists txs, tx, []. eauto. Qed.

(** The access grants the contract makes with [FHE.allow] and
    [FHE.allowThis].  A call that succeeds adds grants only of these kinds:
    to the contract itself or to the owner (as stored after the call), on
    the handle then stored as total or as target; and, in [donate], to the
    contract itself or to the caller, on the handle then stored as the
    caller's balance.  No call grants a handle to any other account.  Hence,
    along any trace from deployment, an account other than the contract that
    holds a grant on any handle has itself started a campaign or donated,
    in a call that did not revert.

    The statement is about the pairs (handle, account) handed to the access
    list, whatever the identities of the handles are: it bounds the grants
    made, not what a grantee can decrypt through them.  The library derives
    a handle from the operation and its operands, so one handle may be
    stored in two roles (a first donation in a campaign yields the total and
    the donor's balance from the same operands), and a grant made for one
    role then serves for the other. *)
Theorem grants_only_to_participants :
  (forall s tx s' h a,
     call tx s = Ok tt s' ->
     (h, a) ∈ acl (fhe s') ->
     (h, a) ∈ acl (fhe s)
     \/ ((a = this s \/ a = charityOwner (storage s'))
         /\ (h = hid (DonateContract.totalDonations s')
             \/ h = hid (DonateContract.targetAmount s')))
     \/ exists sender value x,
          tx = Donate sender value x
          /\ (a = this s \/ a = sender)
          /\ h = hid (DonateContract.balanceOf s' sender))
  /\ (forall self rejecting txs h a,
        (h, a) ∈ acl (fhe (run (deployed self rejecting) txs)) ->
        a = self \/ took_part (deployed self rejecting) a txs).
Proof.
  split; [exact call_grants|].
  intros self rejecting txs.
  set (s0 := deployed self rejecting).
  assert (Hinv : this (run s0 txs) = self
            /\ (forall h a, (h, a) ∈ acl (fhe (run s0 txs)) ->
                            a = self \/ took_part s0 a txs)
            /\ (campaignActive (storage (run s0 txs)) = true ->
                took_part s0 (charityOwner (storage (run s0 txs))) txs));
    [| by apply Hinv].
  induction txs as [|tx txs (Hme & Hacl & Hown)] using rev_ind.
  - split; [reflexivity|]. split.
    + intros h a H. vm_compute in H. discriminate H.
    + intros H. discriminate H.
  - replace (run s0 (txs ++ [tx])) with (step (run s0 txs) tx)
      by (unfold run; by rewrite fold_left_app).
    set (s := run s0 txs) in *.
    split; [by rewrite step_this|]. split.
    + intros h a Hin.
      destruct (step_grantee s tx h a Hin) as [Hold | [-> | [[Hact [s' Hok]] | [Hon ->]]]].
      * destruct (Hacl h a Hold) as [?|?]; [by left|].
        right. by apply took_part_snoc.
      * by left.
      * right. by apply (took_part_last s0 a txs tx s').
      * right. by apply took_part_snoc, Hown.
    + intros Hon.
      destruct (step_active_owner s tx Hon) as [[Hon' ->] | [Hact [s' Hok]]].
      * by apply took_part_snoc, Hown.
      * by apply (took_part_last s0 _ txs tx s').
Qed.

Lemma grants_only_to_participants_witness :
  let s := run (deployed 100 ∅) [StartCampaign 1 (enc 1000); Donate 2 300 (enc 300)] in
  let tx := Donate 3 5 (enc 5) in
  (hid (DonateContract.balanceOf (step s tx) 3), 3) ∈ acl (fhe (step s tx))
  /\ forall h a, (h, a) ∈ acl (fhe (step s tx)) ->
       (h, a) ∈ acl (fhe s)
       \/ ((a = this s \/ a = charityOwner (storage (step s tx)))
           /\ (h = hid (DonateContract.totalDonations (step s tx))
               \/ h = hid (DonateContract.targetAmount (step s tx))))
       \/ exists sender value x,
            tx = Donate sender value x
            /\ (a = this s \/ a = sender)
            /\ h = hid (DonateContract.balanceOf (step s tx) sender).
Proof.
  intros s tx.
  assert (H : call tx s = Ok tt (step s tx)) by (vm_compute; reflexivity).
  split.
  - apply (bool_decide_unpack _). vm_compute. exact I.
  - exact (fun h a => proj1 grants_only_to_participants s tx (step s tx) h a H).
Defined.

(** ** Solvency when donors pay what they encrypt *)

Lemma debts_below_ext p1 r1 p2 r2 n :
  (forall k, (k < n)%nat -> debt p1 r1 (Z.of_nat k) = debt p2 r2 (Z.of_nat k)) ->
  debts_below p1 r1 n = debts_below p2 r2 n.
Proof.
  induction n as [|n IH]; intros H; [reflexivity|].
  cbn [debts_below]. rewrite (H n) by lia. rewrite IH; [reflexivity|].
  intros k Hk. apply H. lia.
Qed.

Lemma debts_below_nonneg p r n :
  (forall rid, 0 <= debt p r rid) -> 0 <= debts_below p r n.
Proof.
  intros H. induction n as [|n IH]; cbn [debts_below]; [lia|].
  specialize (H (Z.of_nat n)). lia.
Qed.

Lemma debts_below_remove p1 r1 p2 r2 n rid :
  0 <= rid < Z.of_nat n ->
  debt p2 r2 rid = 0 ->
  (forall k, k <> rid -> debt p2 r2 k = debt p1 r1 k) ->
  debts_below p2 r2 n = debts_below p1 r1 n - debt p1 r1 rid.
Proof.
  intros Hrid Hzero Hother. induction n as [|n IH]; [lia|].
  cbn [debts_below].
  destruct (decide (Z.of_nat n = rid)) as [<-|Hne].
  - rewrite Hzero.
    rewrite (debts_below_ext p2 r2 p1 r1 n); [lia|].
    intros k Hk. apply Hother. lia.
  - rewrite (Hother _ Hne), IH by lia. lia.
Qed.

Lemma debts_below_member p r n rid :
  (forall k, 0 <= debt p r k) -> 0 <= rid < Z.of_nat n ->
  debt p r rid <= debts_below p r n.
Proof.
  intros Hpos Hrid. induction n as [|n IH]; [lia|].
  cbn [debts_below].
  destruct (decide (Z.of_nat n = rid)) as [<-|Hne].
  - pose proof (debts_below_nonneg p r n Hpos). lia.
  - specialize (Hpos (Z.of_nat n)). specialize (IH ltac:(lia)). lia.
Qed.

Lemma deployed_solvent self rejecting : solvent (deployed self rejecting).
Proof.
  unfold solvent, owed, campaign_total, deployed, blank, DonateContract.constructor.
  reduce_call. cbn.
  split; [lia|].
  split; [intros rid a H; by rewrite lookup_empty in H|].
  split; [lia|].
  split; [intros rid; unfold debt; by rewrite lookup_empty|].
  split; [by vm_compute|].
  right. split; [reflexivity|]. intros rid. apply lookup_empty.
Qed.

Ltac facts' := unfold isInitialized in *; cbn [hid plain negb] in *; bool_facts.
Ltac conjs := repeat apply conj.

Lemma Z_to_nat_succ c : 0 <= c -> Z.to_nat (c + 1) = S (Z.to_nat c).
Proof. intros. lia. Qed.

Lemma debt_insert_ne (p : gmap Z Z) (r : gmap Z (list ehandle)) c a hs k :
  k <> c -> debt (<[ c := a ]> p) (<[ c := hs ]> r) k = debt p r k.
Proof. intros Hne. unfold debt. by rewrite !lookup_insert_ne. Qed.

Lemma debt_saved_insert_ne (p : gmap Z Z) (r : gmap Z (list ehandle)) c hs k :
  k <> c -> debt p (<[ c := hs ]> r) k = debt p r k.
Proof. intros Hne. unfold debt. by rewrite lookup_insert_ne. Qed.

Lemma debt_none (p : gmap Z Z) (r : gmap Z (list ehandle)) k :
  p !! k = None -> debt p r k = 0.
Proof. intros H. unfold debt. by rewrite H. Qed.

Lemma debt_delete_ne (p : gmap Z Z) (r : gmap Z (list ehandle)) rid k :
  k <> rid -> debt (delete rid p) r k = debt p r k.
Proof. intros Hne. unfold debt. by rewrite lookup_delete_ne. Qed.

Lemma debt_delete_eq (p : gmap Z Z) (r : gmap Z (list ehandle)) rid :
  debt (delete rid p) r rid = 0.
Proof. apply debt_none, lookup_delete_eq. Qed.

Lemma verified_debt (p : gmap Z Z) (r : gmap Z (list ehandle)) rid e l0 z l1 proof c (X : Prop) :
  r !! rid = Some (e :: l0) ->
  FHE.verifySignatures (e :: l0) (z :: l1) proof = true ->
  address_at p rid <> 0 \/ (X /\ forall k, r !! k = None) ->
  (forall k a, p !! k = Some a -> 0 <= k < c) ->
  debt p r rid = z /\ 0 <= rid < c.
Proof.
  intros Hr Hv Hown Hkeys.
  unfold FHE.verifySignatures in Hv. apply andb_true_iff in Hv as [_ Hv].
  apply bool_decide_eq_true in Hv. injection Hv as -> _.
  destruct Hown as [Hw | [_ Hnone]]; [| by rewrite Hnone in Hr].
  unfold address_at in Hw. unfold debt. rewrite Hr.
  destruct (p !! rid) as [w|] eqn:Hp; [|done].
  split; [reflexivity | by eapply Hkeys].
Qed.

Lemma step_solvent s tx :
  wf s -> solvent s -> from_account tx -> honest tx -> solvent (step s tx).
Proof.
  unfold wf, solvent, owed, campaign_total. open_state s.
  cbn [fhe storage nextHandle _totalDonations _targetAmount _donorBalances
       campaignActive charityOwner balance counterRequest requestedHandles
       _pendingWithdrawals].
  intros (Hn & Ht & Hg & Hd) (Hc & Hkeys & HT & Hdebt & Hbal & Hown) Hacc Hhon.
  destruct tx; cbn [from_account honest] in *; symex; facts'; subst.
  all: try (conjs; assumption).
  all: try (exfalso; lia).
  - (* startCampaign *)
    conjs; try assumption; [lia | by left].
  - (* endCampaign *)
    conjs; try assumption; [lia | | | |].
    + intros rid a H. destruct (decide (counterRequest0 = rid)) as [<-|Hne]; [lia|].
      rewrite lookup_insert_ne in H by done. apply Hkeys in H. lia.
    + intros rid. destruct (decide (rid = counterRequest0)) as [->|Hne].
      * unfold debt. rewrite !lookup_insert_eq. exact HT.
      * rewrite debt_insert_ne by done. apply Hdebt.
    + rewrite Z_to_nat_succ by done. cbn [debts_below]. rewrite Z2Nat.id by done.
      replace (debt _ _ counterRequest0) with (plain _totalDonations0)
        by (unfold debt; by rewrite !lookup_insert_eq).
      rewrite (debts_below_ext _ _ _pendingWithdrawals0 requestedHandles0);
        [lia|].
      intros k Hk. apply debt_insert_ne. lia.
    + destruct Hown as [?|[? _]]; [by left | discriminate].
  - (* donate *)
    pose proof (Z.mod_pos_bound (plain _totalDonations0 + ext_plain encryptedAmount)
                  (2 ^ 128) ltac:(lia)).
    pose proof (Z.mod_le (plain _totalDonations0 + ext_plain encryptedAmount)
                  (2 ^ 128) ltac:(lia) ltac:(lia)).
    conjs; try assumption; lia.
  - pose proof (Z.mod_pos_bound (plain _totalDonations0 + ext_plain encryptedAmount)
                  (2 ^ 128) ltac:(lia)).
    pose proof (Z.mod_le (plain _totalDonations0 + ext_plain encryptedAmount)
                  (2 ^ 128) ltac:(lia) ltac:(lia)).
    conjs; try assumption; lia.
  - (* requestProgress *)
    assert (Hfree : _pendingWithdrawals0 !! counterRequest0 = None).
    { destruct (_pendingWithdrawals0 !! counterRequest0) eqn:Hp; [|done].
      apply Hkeys in Hp. lia. }
    conjs; try assumption; [lia | | | |].
    + intros rid a H. apply Hkeys in H. lia.
    + intros rid. destruct (decide (rid = counterRequest0)) as [->|Hne].
      * by rewrite debt_none.
      * rewrite debt_saved_insert_ne by done. apply Hdebt.
    + rewrite Z_to_nat_succ by done. cbn [debts_below]. rewrite Z2Nat.id by done.
      rewrite debt_none by done.
      rewrite (debts_below_ext _ _ _pendingWithdrawals0 requestedHandles0);
        [lia|].
      intros k Hk. apply debt_saved_insert_ne. lia.
    + destruct Hown as [?|[? _]]; [by left | discriminate].
  - (* callbackEndCampaign, campaign active *)
    destruct (verified_debt _ _ _ _ _ _ _ _ _ _ Heqo Heqb0 Hown Hkeys) as [Hz Hr].
    conjs; try assumption.
    + intros rid a H'. apply lookup_delete_Some in H' as [_ H']. by eapply Hkeys.
    + intros rid. destruct (decide (rid = requestId)) as [->|Hne].
      * rewrite debt_delete_eq. lia.
      * rewrite debt_delete_ne by done. apply Hdebt.
    + rewrite (debts_below_remove _pendingWithdrawals0 requestedHandles0 _ _ _ requestId);
        [lia | lia | apply debt_delete_eq | intros k Hk; by apply debt_delete_ne].
  - (* callbackEndCampaign, campaign inactive *)
    destruct (verified_debt _ _ _ _ _ _ _ _ _ _ Heqo Heqb0 Hown Hkeys) as [Hz Hr].
    conjs; try assumption.
    + intros rid a H'. apply lookup_delete_Some in H' as [_ H']. by eapply Hkeys.
    + intros rid. destruct (decide (rid = requestId)) as [->|Hne].
      * rewrite debt_delete_eq. lia.
      * rewrite debt_delete_ne by done. apply Hdebt.
    + rewrite (debts_below_remove _pendingWithdrawals0 requestedHandles0 _ _ _ requestId);
        [lia | lia | apply debt_delete_eq | intros k Hk; by apply debt_delete_ne].
Qed.

Lemma run_solvent txs : forall s,
  wf s -> solvent s -> Forall from_account txs -> Forall honest txs ->
  solvent (run s txs).
Proof.
  induction txs as [|tx txs IH]; intros s Hwf Hs Hacc Hhon; [exact Hs|].
  inversion Hacc; inversion Hhon; subst.
  apply (IH (step s tx)); try assumption.
  - by apply step_wf.
  - by apply step_solvent.
Qed.

Lemma solvent_covers rid cleartexts proof s :
  solvent s ->
  DonateContract.callbackEndCampaign rid cleartexts proof s
  <> Revert (Error "Insufficient balance").
Proof.
  unfold solvent, owed, campaign_total. open_state s.
  cbn [fhe storage nextHandle _totalDonations _targetAmount _donorBalances
       campaignActive charityOwner balance counterRequest requestedHandles
       _pendingWithdrawals].
  intros (Hc & Hkeys & HT & Hdebt & Hbal & Hown).
  symex; try discriminate. intros _. facts'. subst.
  destruct (verified_debt _ _ _ _ _ _ _ _ _ _ Heqo Heqb Hown Hkeys) as [Hz Hr].
  pose proof (debts_below_member _pendingWithdrawals0 requestedHandles0
                (Z.to_nat counterRequest0) rid Hdebt ltac:(lia)).
  destruct campaignActive0; lia.
Qed.

(** When every donation pays the amount it encrypts, the contract can
    always honour what it owes: at any time since deployment its balance
    covers the total of the running campaign plus the totals of all ended
    campaigns whose withdrawal is still pending, and no end-campaign callback
    ever fails for lack of balance. *)
Theorem honest_payments_cover_withdrawals self rejecting txs :
  Forall from_account txs -> Forall honest txs ->
  let s := run (deployed self rejecting) txs in
  campaign_total s + owed s <= balance s
  /\ forall rid cleartexts proof,
       DonateContract.callbackEndCampaign rid cleartexts proof s
       <> Revert (Error "Insufficient balance").
Proof.
  intros Hacc Hhon s.
  assert (Hs : solvent s)
    by (apply run_solvent; auto using deployed_wf, deployed_solvent).
  split; [apply Hs|]. intros rid cleartexts proof. by apply solvent_covers.
Qed.

Lemma honest_payments_cover_withdrawals_witness :
  let txs := [StartCampaign 1 (enc 1000); Donate 2 300 (enc 300); EndCampaign 1;
              StartCampaign 3 (enc 10); Donate 2 5 (enc 5)] in
  let s := run (deployed 100 ∅) txs in
  campaign_total s = 5 /\ owed s = 300 /\ balance s = 305
  /\ DonateContract.callbackEndCampaign 0 [300] true s
     <> Revert (Error "Insufficient balance").
Proof.
  intros txs s.
  assert (H1 : Forall from_account txs)
    by (repeat constructor; vm_compute; discriminate).
  assert (H2 : Forall honest txs) by (repeat constructor).
  split; [vm_compute; reflexivity|]. split; [vm_compute; reflexivity|].
  split; [vm_compute; reflexivity|].
  exact (proj2 (honest_payments_cover_withdrawals 100 ∅ txs H1 H2) 0 [300] true).
Defined.

(** ** A withdrawal waits for its owner *)

Lemma step_blocked rid w s tx :
  blocked rid w s -> ~ starts_as w tx -> blocked rid w (step s tx).
Proof.
  unfold blocked, address_at. open_state s.
  cbn [fhe storage counterRequest _pendingWithdrawals charityOwner].
  intros (Hp & Hw & Hlt) Hns.
  destruct tx; cbn [starts_as] in Hns; symex; facts'; subst;
    repeat split; try assumption; try lia; try congruence.
  - by rewrite lookup_insert_ne by lia.
  - destruct (decide (requestId = rid)) as [->|Hne].
    + exfalso. unfold address_at in *. rewrite Hp in *. cbn in *. congruence.
    + by rewrite lookup_delete_ne.
Qed.

(** [startCampaign] is open to any account, and the end-campaign callback
    pays only when the account that called [endCampaign] is still the owner.
    So once another account owns the contract, a pending withdrawal cannot be
    paid: it stays pending, and no completion for it succeeds, for as long as
    the account that requested it has not started a campaign again. *)
Theorem withdrawal_waits_for_owner rid w s txs cleartexts proof s' :
  reachable s ->
  _pendingWithdrawals (storage s) !! rid = Some w ->
  charityOwner (storage s) <> w ->
  Forall (fun tx => ~ starts_as w tx) txs ->
  _pendingWithdrawals (storage (run s txs)) !! rid = Some w
  /\ DonateContract.callbackEndCampaign rid cleartexts proof (run s txs) <> Ok tt s'.
Proof.
  intros Hreach Hp Hw Hall.
  assert (Hb : blocked rid w (run s txs)).
  { assert (Hb0 : blocked rid w s).
    { repeat split; try assumption.
      destruct (reachable_requests_wf s Hreach) as [Hfree Hpend].
      destruct (Hpend _ _ Hp) as [h Hh].
      destruct (Z.lt_ge_cases rid (counterRequest (fhe s))) as [|Hge]; [done|].
      rewrite (Hfree _ Hge) in Hh. discriminate. }
    clear Hreach Hp Hw. revert s Hb0.
    induction Hall as [|tx txs Htx _ IH]; intros s Hb0; [exact Hb0|].
    apply (IH (step s tx)). by apply step_blocked. }
  destruct Hb as (Hp' & Hw' & _). split; [exact Hp'|].
  intros Hok.
  destruct (callbackEndCampaign_inv _ _ _ _ _ Hok)
    as (? & ? & ? & _ & _ & _ & _ & _ & Hwho & _).
  unfold address_at in Hwho. rewrite Hp' in Hwho. cbn in Hwho. congruence.
Qed.

Lemma withdrawal_waits_for_owner_witness :
  let s := run (deployed 100 ∅)
             [StartCampaign 1 (enc 1000); Donate 2 300 (enc 300); EndCampaign 1;
              StartCampaign 3 (enc 10)] in
  let txs := [Donate 2 5 (enc 5); EndCampaign 3; CallbackEndCampaign 1 [5] true] in
  balance (run s txs) = 300
  /\ _pendingWithdrawals (storage (run s txs)) !! 0 = Some 1
  /\ DonateContract.callbackEndCampaign 0 [300] true (run s txs) <> Ok tt (run s txs).
Proof.
  intros s txs.
  assert (H0 : reachable s) by (eexists 100, ∅, _; reflexivity).
  assert (H1 : _pendingWithdrawals (storage s) !! 0 = Some 1) by (vm_compute; reflexivity).
  assert (H2 : charityOwner (storage s) <> 1) by (vm_compute; discriminate).
  assert (H3 : Forall (fun tx => ~ starts_as 1 tx) txs)
    by (repeat constructor; intros []).
  split; [vm_compute; reflexivity|].
  exact (withdrawal_waits_for_owner 0 1 s txs [300] true (run s txs) H0 H1 H2 H3).
Defined.

(** ** The event log *)

(** The events of the contract itself, those it declares and logs with its
    own [emit] statements.  Of these, a successful call logs exactly the ones
    of its kind, in this order and with these arguments: [CampaignStarted]
    with the new owner and target handle; [WithdrawalRequested] with the
    owner and the total's handle; [TargetUpdated] with the new handle;
    [Donation] with the donor and the handle of the submitted amount; none
    for [requestProgress]; [Withdrawn] then [CampaignEnded] with the owner
    and the decrypted total; [CampaignProgress] with the two decrypted values
    and their percentage.  A reverted call logs none.

    The log of the model holds the contract's events only.  On chain the log
    of a successful callback starts with one more entry, the library's
    [DecryptionFulfilled] for the request, which [FHE.checkSignatures] logs
    from the contract's address before the callback's own events. *)
Theorem events_emitted s tx :
  match call tx s with
  | Ok _ s' => events s' = events s ++ emitted tx s s'
  | Revert _ => events (step s tx) = events s
  end.
Proof.
  unfold step, commit.
  destruct (call tx s) as [[] s'|f] eqn:Hcall; [|reflexivity].
  revert s' Hcall. open_state s. intros s'.
  destruct tx; symex; finish_call; cbn [emitted]; reduce_call;
    try (match goal with H : ext_proof_ok _ = true |- _ => rewrite H end;
         reduce_call);
    cbn [hd nth]; rewrite <- ?app_assoc, ?app_nil_r; try reflexivity.
  all: try match goal with H : (0 <? _) = _ |- _ => rewrite H end.
  all: try reflexivity.
  all: facts'; subst; reflexivity.
Qed.
